(** * FocusFlow: the virtualized PDF page viewer (src/components/FileViewer.tsx)

    A shallow embedding of the [PDFPage] and [FileViewer] components and the
    properties of their visibility tracking, render-task handling and scale
    resolution.

    Conventions of the embedding.
    - JavaScript numbers are modelled as exact rationals [Q]: comparisons,
      [Math.min], [Math.max] and [Math.floor] are exact on doubles; the
      rounding of [*], [/] and [+] is not modelled.
    - A JavaScript [Map] is an association list in insertion order:
      [Map.prototype.forEach] visits the entries in that order and
      [Map.prototype.set] on an existing key keeps the key's position.
    - Asynchronous code is a step function on an explicit state: every
      suspended call of [render] is an entry of the page's [calls], and the
      events are the resumptions of those calls.
    - Timers are entries of a list, each waiting, cleared or fired; the
      delay itself is not modelled.

    Besides the viewer the file covers the toolbar timer of the viewer,
    what [renderContent] shows, and the file handlers of the application
    component that opens the viewer. *)

From Stdlib Require Import QArith Qround Qminmax Lqa Ascii String.
From stdpp Require Import base option list sorting.

Local Open Scope Q_scope.

(** ** JavaScript numbers *)

Definition Qlt_bool (x y : Q) : bool := negb (Qle_bool y x).

(** ** Visibility record and current page ([FileViewer], lines 166-169, 239-255) *)

Module Visibility.

(** [pageVisibilityRef.current : Map<number, number>] *)
Definition VisibilityRecord := list (nat * Q).

(** [Map.prototype.set] *)
Fixpoint map_set (m : VisibilityRecord) (k : nat) (v : Q) : VisibilityRecord :=
  match m with
  | [] => [(k, v)]
  | (k', v') :: m' =>
      if Nat.eqb k' k then (k', v) :: m' else (k', v') :: map_set m' k v
  end.

(** The body of the [forEach] callback on the pair
    [(maxRatio, mostVisiblePage)]. *)
Definition visit (acc : Q * nat) (e : nat * Q) : Q * nat :=
  let '(maxRatio, mostVisiblePage) := acc in
  let '(page, vis) := e in
  if Qlt_bool maxRatio vis then (vis, page) else (maxRatio, mostVisiblePage).

(** [let maxRatio = 0; let mostVisiblePage = currentPage; forEach ...] *)
Definition scan (m : VisibilityRecord) (currentPage : nat) : Q * nat :=
  fold_left visit m (0, currentPage).

Definition mostVisiblePage (m : VisibilityRecord) (currentPage : nat) : nat :=
  snd (scan m currentPage).

(** The part of the viewer state the handler reads and writes. *)
Record State := mkState {
  pageVisibilityRef : VisibilityRecord;
  currentPage : nat
}.

(** [useState(1)], [useRef(new Map())] *)
Definition init : State := mkState [] 1.

Definition handleUpdateCurrentPage (s : State) (pageNum : nat) (ratio : Q)
  : State :=
  let m := map_set (pageVisibilityRef s) pageNum ratio in
  let most := mostVisiblePage m (currentPage s) in
  if negb (Nat.eqb most (currentPage s))
  then mkState m most
  else mkState m (currentPage s).

(** A sequence of observer callbacks, applied from the initial state. *)
Definition run (us : list (nat * Q)) : State :=
  fold_left (fun s u => handleUpdateCurrentPage s (fst u) (snd u)) us init.

(** The recorded ratio of a page; a missing page counts as 0. *)
Fixpoint ratio_of (m : VisibilityRecord) (p : nat) : Q :=
  match m with
  | [] => 0
  | (k, v) :: m' => if Nat.eqb k p then v else ratio_of m' p
  end.


End Visibility.

(** ** Scale resolution and canvas sizing ([PDFPage] lines 81-98,
       [FileViewer] lines 186-193, 206-222, 270-273) *)

Module Geometry.

(** The result of pdf.js [page.getViewport({ scale })] for an unrotated page:
    the page's natural size (its size at scale 1) times the scale. *)
Record Viewport := mkViewport { vp_width : Q; vp_height : Q }.

Definition getViewport (natural : Q * Q) (scale : Q) : Viewport :=
  mkViewport (fst natural * scale) (snd natural * scale).

(** [window.devicePixelRatio || 1] *)
Definition dpr_or_1 (devicePixelRatio : Q) : Q :=
  if Qeq_bool devicePixelRatio 0 then 1 else devicePixelRatio.

(** The four canvas attributes the render effect writes; the style lengths
    are in CSS pixels and unset on a new canvas. *)
Record Canvas := mkCanvas {
  width : Z;
  height : Z;
  style_width : option Z;
  style_height : option Z
}.

(** A new [<canvas>] element is 300 x 150 with no style size. *)
Definition newCanvas : Canvas := mkCanvas 300 150 None None.

(** Lines 93-98. *)
Definition sizeCanvas (viewport : Viewport) (devicePixelRatio : Q) : Canvas :=
  let dpr := dpr_or_1 devicePixelRatio in
  mkCanvas (Qfloor (vp_width viewport * dpr))
           (Qfloor (vp_height viewport * dpr))
           (Some (Qfloor (vp_width viewport)))
           (Some (Qfloor (vp_height viewport))).

(** [window.innerWidth - (showNotes ? 384 : 0) - 48] *)
Definition availableWidth (innerWidth : Q) (showNotes : bool) : Q :=
  innerWidth - (if showNotes then 384 else 0) - 48.

(** The scale [loadPdf] sets; [naturalWidth] is the width of page 1 at
    scale 1. *)
Definition initialScale (innerWidth : Q) (showNotes : bool) (naturalWidth : Q)
  : Q :=
  let fitWidthScale := availableWidth innerWidth showNotes / naturalWidth in
  Qmin fitWidthScale 1.

(** The scale [adjustScale] sets after the side panel is toggled. *)
Definition adjustScale (containerWidth naturalWidth : Q) : Q :=
  let fitScale := (containerWidth - 64) / naturalWidth in
  Qmin fitScale 1.

(** [setScale(prev => Math.max(0.2, Math.min(5.0, prev + delta)))] *)
Definition changeZoom (prev delta : Q) : Q :=
  Qmax (2 # 10) (Qmin 5 (prev + delta)).

End Geometry.

(** ** One page: the [PDFPage] component (lines 39-151) *)

Module Page.
Import Geometry.

(** A pdf.js [RenderTask], as returned by [page.render]. Its promise is
    pending while the task is [Running]; it fulfils ([Finished]), rejects
    with an error of pdf.js ([Errored]) or, after [cancel()], rejects with
    a [RenderingCancelledException] ([Cancelled]). *)
Inductive TaskStatus := Running | Finished | Cancelled | Errored.

#[global] Instance TaskStatus_eq_dec : EqDecision TaskStatus.
Proof. solve_decision. Defined.

Record RenderTask := mkTask { task_scale : Q; task_status : TaskStatus }.

(** [RenderTask.cancel()]: aborts a running task and does nothing to a
    settled one. *)
Definition cancel (t : RenderTask) : RenderTask :=
  match task_status t with
  | Running => mkTask (task_scale t) Cancelled
  | _ => t
  end.

Definition settle (st : TaskStatus) (t : RenderTask) : RenderTask :=
  mkTask (task_scale t) st.

(** A call of [render] is suspended either at [await pdfDoc.getPage] or at
    [await task.promise]; it carries the [scale] and [pageHeight] its
    closure captured when the effect ran. *)
Inductive Phase := AwaitGetPage | AwaitTask (task : nat).

Record Call := mkCall {
  call_scale : Q;
  call_pageHeight : option Q;
  call_phase : Phase
}.

Record PDFPage := mkPage {
  (* props *)
  pdfDoc : option nat;
  pageNum : nat;
  scale : Q;
  (* useState *)
  isVisible : bool;
  isRendered : bool;
  pageHeight : option Q;
  (* useRef; [canvasRef.current] is null once the component is unmounted *)
  canvasRef : option Canvas;
  renderTaskRef : option nat;
  (* the render tasks this page has issued, the suspended calls of
     [render], and what the page wrote with [console.error]:
     the page number and [err.name] *)
  tasks : list RenderTask;
  calls : list Call;
  console : list (nat * string)
}.

Definition set_scale (x : Q) (s : PDFPage) : PDFPage :=
  mkPage (pdfDoc s) (pageNum s) x (isVisible s) (isRendered s) (pageHeight s)
         (canvasRef s) (renderTaskRef s) (tasks s) (calls s) (console s).
Definition set_isVisible (x : bool) (s : PDFPage) : PDFPage :=
  mkPage (pdfDoc s) (pageNum s) (scale s) x (isRendered s) (pageHeight s)
         (canvasRef s) (renderTaskRef s) (tasks s) (calls s) (console s).
Definition set_canvasRef (x : option Canvas) (s : PDFPage) : PDFPage :=
  mkPage (pdfDoc s) (pageNum s) (scale s) (isVisible s) (isRendered s)
         (pageHeight s) x (renderTaskRef s) (tasks s) (calls s) (console s).
Definition set_renderTaskRef (x : option nat) (s : PDFPage) : PDFPage :=
  mkPage (pdfDoc s) (pageNum s) (scale s) (isVisible s) (isRendered s)
         (pageHeight s) (canvasRef s) x (tasks s) (calls s) (console s).
Definition set_tasks (x : list RenderTask) (s : PDFPage) : PDFPage :=
  mkPage (pdfDoc s) (pageNum s) (scale s) (isVisible s) (isRendered s)
         (pageHeight s) (canvasRef s) (renderTaskRef s) x (calls s) (console s).
Definition set_calls (x : list Call) (s : PDFPage) : PDFPage :=
  mkPage (pdfDoc s) (pageNum s) (scale s) (isVisible s) (isRendered s)
         (pageHeight s) (canvasRef s) (renderTaskRef s) (tasks s) x (console s).
Definition set_console (x : list (nat * string)) (s : PDFPage) : PDFPage :=
  mkPage (pdfDoc s) (pageNum s) (scale s) (isVisible s) (isRendered s)
         (pageHeight s) (canvasRef s) (renderTaskRef s) (tasks s) (calls s) x.

Definition mounted (s : PDFPage) : bool :=
  match canvasRef s with Some _ => true | None => false end.

(** React drops the state updates of an unmounted component. *)
Definition setIsRendered (x : bool) (s : PDFPage) : PDFPage :=
  if mounted s then
    mkPage (pdfDoc s) (pageNum s) (scale s) (isVisible s) x (pageHeight s)
           (canvasRef s) (renderTaskRef s) (tasks s) (calls s) (console s)
  else s.
Definition setPageHeight (x : Q) (s : PDFPage) : PDFPage :=
  if mounted s then
    mkPage (pdfDoc s) (pageNum s) (scale s) (isVisible s) (isRendered s)
           (Some x) (canvasRef s) (renderTaskRef s) (tasks s) (calls s)
           (console s)
  else s.

(** The component as first rendered: hooks at their initial values and a
    new canvas behind [canvasRef]. *)
Definition mount (doc : option nat) (page : nat) (sc : Q) : PDFPage :=
  mkPage doc page sc false false None (Some newCanvas) None [] [] [].

(** [!pageHeight] on [number | null] *)
Definition falsy (h : option Q) : bool :=
  match h with
  | None => true
  | Some x => Qeq_bool x 0
  end.

(** The render effect (lines 75-130), up to the first [await] of [render]. *)
Definition renderEffect (s : PDFPage) : PDFPage :=
  if negb (isVisible s) || negb (bool_decide (is_Some (pdfDoc s)))
     || negb (mounted s)
  then s
  else set_calls (calls s ++ [mkCall (scale s) (pageHeight s) AwaitGetPage]) s.

(** The observer callback (lines 50-56), without the call of
    [registerVisibility], which belongs to the parent: [setIsVisible(true)]
    re-runs the render effect when it changes [isVisible]. *)
Definition intersect (isIntersecting : bool) (s : PDFPage) : PDFPage :=
  if isIntersecting && negb (isVisible s)
  then renderEffect (set_isVisible true s)
  else s.

(** A re-render by the parent with a [scale] prop: the render effect re-runs
    when the value differs from the previous one. Its cleanup (lines
    125-129) does nothing. *)
Definition setScale (sc : Q) (s : PDFPage) : PDFPage :=
  if Qeq_bool sc (scale s) then s else renderEffect (set_scale sc s).

(** Removal from the tree: the observer is disconnected, the render
    effect's cleanup does nothing, React clears [canvasRef.current]. *)
Definition unmount (s : PDFPage) : PDFPage := set_canvasRef None s.

(** The [catch] block of [render] (lines 116-120). *)
Definition catchRender (name : string) (s : PDFPage) : PDFPage :=
  if negb (String.eqb name "RenderingCancelledException")
  then set_console (console s ++ [(pageNum s, name)]) s
  else s.

(** [render] between its two awaits (lines 81-113), for the call [c] at
    position [i]. *)
Definition renderBody (i : nat) (c : Call) (natural : Q * Q)
    (devicePixelRatio : Q) (hasContext : bool) (s : PDFPage) : PDFPage :=
  let viewport := getViewport natural (call_scale c) in
  let s1 := if falsy (call_pageHeight c)
            then setPageHeight (vp_height viewport) s else s in
  match canvasRef s1 with
  | None =>
      (* [canvasRef.current!] is null: [canvas.getContext] throws *)
      set_calls (delete i (calls s1)) (catchRender "TypeError" s1)
  | Some _ =>
      if negb hasContext then set_calls (delete i (calls s1)) s1
      else
        let s2 := set_canvasRef (Some (sizeCanvas viewport devicePixelRatio)) s1 in
        let s3 := match renderTaskRef s2 with
                  | Some t => set_tasks (alter cancel t (tasks s2)) s2
                  | None => s2
                  end in
        let t' := length (tasks s3) in
        let s4 := set_tasks (tasks s3 ++ [mkTask (call_scale c) Running]) s3 in
        let s5 := set_renderTaskRef (Some t') s4 in
        set_calls (<[i := mkCall (call_scale c) (call_pageHeight c)
                            (AwaitTask t')]> (calls s5)) s5
  end.

(** The resumptions of a suspended call of [render]; [i] is its position in
    [calls]. *)
Inductive Async :=
| GetPageResolved (i : nat) (natural : Q * Q) (devicePixelRatio : Q)
                  (hasContext : bool)
| GetPageRejected (i : nat) (name : string)
| TaskResolved (i : nat)
| TaskRejected (i : nat) (name : string)
| TaskCancelled (i : nat).

(** The task a call waits for, when its status is [st]. *)
Definition awaited (st : TaskStatus) (i : nat) (s : PDFPage) : option nat :=
  match calls s !! i with
  | Some (mkCall _ _ (AwaitTask t)) =>
      match tasks s !! t with
      | Some task =>
          if bool_decide (task_status task = st) then Some t else None
      | None => None
      end
  | _ => None
  end.

Definition step (ev : Async) (s : PDFPage) : option PDFPage :=
  match ev with
  | GetPageResolved i natural dpr hasContext =>
      match calls s !! i with
      | Some (mkCall sc h AwaitGetPage) =>
          Some (renderBody i (mkCall sc h AwaitGetPage) natural dpr hasContext s)
      | _ => None
      end
  | GetPageRejected i name =>
      match calls s !! i with
      | Some (mkCall _ _ AwaitGetPage) =>
          Some (set_calls (delete i (calls s)) (catchRender name s))
      | _ => None
      end
  | TaskResolved i =>
      match awaited Running i s with
      | Some t =>
          let s1 := set_tasks (alter (settle Finished) t (tasks s)) s in
          Some (set_calls (delete i (calls s1)) (setIsRendered true s1))
      | None => None
      end
  | TaskRejected i name =>
      match awaited Running i s with
      | Some t =>
          let s1 := set_tasks (alter (settle Errored) t (tasks s)) s in
          Some (set_calls (delete i (calls s1)) (catchRender name s1))
      | None => None
      end
  | TaskCancelled i =>
      match awaited Cancelled i s with
      | Some t =>
          Some (set_calls (delete i (calls s))
                  (catchRender "RenderingCancelledException" s))
      | None => None
      end
  end.

(** Everything that can happen to a page. *)
Inductive Event :=
| Intersect (isIntersecting : bool)
| SetScale (sc : Q)
| Unmount
| Resume (ev : Async).

Definition apply (ev : Event) (s : PDFPage) : option PDFPage :=
  match ev with
  | Intersect b => if mounted s then Some (intersect b s) else None
  | SetScale sc => if mounted s then Some (setScale sc s) else None
  | Unmount => if mounted s then Some (unmount s) else None
  | Resume a => step a s
  end.

Fixpoint run (evs : list Event) (s : PDFPage) : option PDFPage :=
  match evs with
  | [] => Some s
  | ev :: evs' =>
      match apply ev s with
      | Some s' => run evs' s'
      | None => None
      end
  end.

Inductive reachable : PDFPage -> Prop :=
| reachable_mount doc page sc : reachable (mount doc page sc)
| reachable_apply s ev s' :
    reachable s -> apply ev s = Some s' -> reachable s'.

(** Every running render task is the one [renderTaskRef] points to. *)
Definition latest_only (s : PDFPage) : Prop :=
  forall t task, tasks s !! t = Some task -> task_status task = Running ->
    renderTaskRef s = Some t.

(** The task list after lines 100-112 issued a render at scale [sc]. *)
Definition issued (sc : Q) (s : PDFPage) : list RenderTask :=
  match renderTaskRef s with
  | Some r => alter cancel r (tasks s)
  | None => tasks s
  end ++ [mkTask sc Running].

(** The call a resumption resumes. *)
Definition call_of (a : Async) : nat :=
  match a with
  | GetPageResolved i _ _ _ | GetPageRejected i _ | TaskResolved i
  | TaskRejected i _ | TaskCancelled i => i
  end.

(** What the component renders (lines 132-150): the placeholder height and
    whether the loading spinner covers the canvas. *)
Record View := mkView { minHeight : Q; spinner : bool }.

Definition view (s : PDFPage) : View :=
  mkView (match pageHeight s with
          | Some h => if Qeq_bool h 0 then 800 else h
          | None => 800
          end)
         (negb (isRendered s)).

End Page.

(** ** The viewer: the [FileViewer] component (lines 155-273, 313-334) *)

Module Viewer.
Import Geometry.

(** The state of the component for a PDF file with a URL. [tracking] holds
    [currentPage] and [pageVisibilityRef]. [pages] are the [PDFPage]
    children in the tree, page [p] at position [p - 1]; [detached] are the
    children React has removed from the tree, whose suspended calls of
    [render] and render tasks go on. *)
Record FileViewer := mkViewer {
  pdfDoc : option nat;
  numPages : nat;
  scale : Q;
  loading : bool;
  error : option string;
  tracking : Visibility.State;
  pages : list Page.PDFPage;
  detached : list Page.PDFPage;
  console : list string
}.

Definition currentPage (v : FileViewer) : nat :=
  Visibility.currentPage (tracking v).
Definition pageVisibilityRef (v : FileViewer) : Visibility.VisibilityRecord :=
  Visibility.pageVisibilityRef (tracking v).

Definition set_scale (x : Q) (ps : list Page.PDFPage) (v : FileViewer)
  : FileViewer :=
  mkViewer (pdfDoc v) (numPages v) x (loading v) (error v) (tracking v)
           ps (detached v) (console v).
Definition set_tracking (x : Visibility.State) (v : FileViewer) : FileViewer :=
  mkViewer (pdfDoc v) (numPages v) (scale v) (loading v) (error v) x
           (pages v) (detached v) (console v).
Definition set_pages (x : list Page.PDFPage) (v : FileViewer) : FileViewer :=
  mkViewer (pdfDoc v) (numPages v) (scale v) (loading v) (error v)
           (tracking v) x (detached v) (console v).
Definition set_detached (x : list Page.PDFPage) (v : FileViewer) : FileViewer :=
  mkViewer (pdfDoc v) (numPages v) (scale v) (loading v) (error v)
           (tracking v) (pages v) x (console v).

(** The hooks' initial values (lines 160-169). *)
Definition init : FileViewer :=
  mkViewer None 0 1 false None Visibility.init [] [] [].

(** [renderContent] shows the page list only when nothing is loading, no
    error is set and a document is there (lines 294-334). *)
Definition showsPages (v : FileViewer) : bool :=
  negb (loading v) && bool_decide (error v = None)
  && bool_decide (is_Some (pdfDoc v)).

(** [Array.from({ length: numPages }, (_, i) => i + 1).map(...)] with new
    component instances. *)
Definition mountPages (doc : nat) (n : nat) (sc : Q) : list Page.PDFPage :=
  (fun p => Page.mount (Some doc) p sc) <$> seq 1 n.

Inductive Event :=
(* [loadPdf] up to its first await: [setLoading(true); setError(null)] *)
| LoadStart
(* [loadPdf] after both awaits were fulfilled; [showNotes] is the value its
   closure captured *)
| LoadResolved (doc pageCount : nat) (naturalWidth innerWidth : Q)
               (showNotes : bool)
(* [loadPdf] after one of its awaits was rejected; [doc] is the document and
   its page count when the first await had been fulfilled *)
| LoadRejected (doc : option (nat * nat))
| ChangeZoom (delta : Q)
(* the timer of the side-panel effect, with a document loaded *)
| AdjustScale (containerWidth naturalWidth : Q)
(* an entry of the [IntersectionObserver] callback of page [page] *)
| Observe (page : nat) (isIntersecting : bool) (ratio : Q)
(* the resumption of a call of [render] of a page in the tree *)
| PageResume (page : nat) (ev : Page.Async)
(* the same for a page that was removed from the tree *)
| DetachedResume (i : nat) (ev : Page.Async).

Definition step (ev : Event) (v : FileViewer) : option FileViewer :=
  match ev with
  | LoadStart =>
      Some (mkViewer (pdfDoc v) (numPages v) (scale v) true None (tracking v)
                     [] (detached v ++ (Page.unmount <$> pages v)) (console v))
  | LoadResolved doc n naturalWidth innerWidth showNotes =>
      if loading v then
        let sc := initialScale innerWidth showNotes naturalWidth in
        let v' := mkViewer (Some doc) n sc false (error v) (tracking v)
                           [] (detached v) (console v) in
        Some (if showsPages v' then set_pages (mountPages doc n sc) v' else v')
      else None
  | LoadRejected doc =>
      if loading v then
        Some (mkViewer (match doc with Some (d, _) => Some d | None => pdfDoc v end)
                       (match doc with Some (_, n) => n | None => numPages v end)
                       (scale v) false
                       (Some "Could not load PDF. It might be corrupted or incompatible."%string)
                       (tracking v) [] (detached v)
                       (console v ++ ["Error loading PDF:"%string]))
      else None
  | ChangeZoom delta =>
      let sc := changeZoom (scale v) delta in
      Some (set_scale sc (Page.setScale sc <$> pages v) v)
  | AdjustScale containerWidth naturalWidth =>
      match pdfDoc v with
      | Some _ =>
          let sc := adjustScale containerWidth naturalWidth in
          Some (set_scale sc (Page.setScale sc <$> pages v) v)
      | None => None
      end
  | Observe page isIntersecting ratio =>
      match pages v !! (page - 1)%nat with
      | Some pg =>
          let v' := set_pages (<[(page - 1)%nat :=
                                 Page.intersect isIntersecting pg]> (pages v)) v in
          Some (set_tracking
                  (Visibility.handleUpdateCurrentPage (tracking v) page ratio) v')
      | None => None
      end
  | PageResume page a =>
      match pages v !! (page - 1)%nat with
      | Some pg =>
          match Page.step a pg with
          | Some pg' => Some (set_pages (<[(page - 1)%nat := pg']> (pages v)) v)
          | None => None
          end
      | None => None
      end
  | DetachedResume i a =>
      match detached v !! i with
      | Some pg =>
          match Page.step a pg with
          | Some pg' => Some (set_detached (<[i := pg']> (detached v)) v)
          | None => None
          end
      | None => None
      end
  end.

Fixpoint run (evs : list Event) (v : FileViewer) : option FileViewer :=
  match evs with
  | [] => Some v
  | ev :: evs' =>
      match step ev v with
      | Some v' => run evs' v'
      | None => None
      end
  end.

End Viewer.

(** ** Scenarios *)

Module Scenario.

(** A4 at 72 dpi, as pdf.js reports it for scale 1. *)
Definition a4 : Q * Q := (595, 842).

(** Page 1 of document 0, mounted at scale 1. *)
Definition page1 : Page.PDFPage := Page.mount (Some 0%nat) 1 1.

(** The page scrolls into view and its render at scale 1 is issued; then the
    scale changes to 1/2 and the effect re-runs, its call of [render] now
    waiting for [getPage]. *)
Definition rescaled : list Page.Event :=
  [Page.Intersect true;
   Page.Resume (Page.GetPageResolved 0 a4 1 true);
   Page.SetScale (1 # 2)].

(** ... and then the render at scale 1/2 is issued too. *)
Definition superseded : list Page.Event :=
  rescaled ++ [Page.Resume (Page.GetPageResolved 1 a4 1 true)].

Definition after (evs : list Page.Event) (s : Page.PDFPage) : Page.PDFPage :=
  default s (Page.run evs s).

(** A document of three pages is opened in a window 1048 wide; the three
    observers report, page 3 filling the viewport, and the render of page 3
    is issued. *)
Definition threePages : list Viewer.Event :=
  [Viewer.LoadStart;
   Viewer.LoadResolved 0 3 595 1048 false;
   Viewer.Observe 1 false 0;
   Viewer.Observe 2 false 0;
   Viewer.Observe 3 true 1;
   Viewer.PageResume 3 (Page.GetPageResolved 0 a4 1 true)].


Definition afterV (evs : list Viewer.Event) (v : Viewer.FileViewer)
  : Viewer.FileViewer :=
  default v (Viewer.run evs v).

End Scenario.

(** ** Predicates on the state of a page *)

Module Lifecycle.
Import Page.

(** The placeholder height is set, and so is the height captured by every
    call of [render] that has not yet passed [getPage]. *)
Definition height_settled (s : PDFPage) : Prop :=
  falsy (pageHeight s) = false
  /\ Forall (fun c => call_phase c = AwaitGetPage ->
                     falsy (call_pageHeight c) = false) (calls s).

(** The position of the task issued last. *)
Definition last_task (s : PDFPage) : option nat :=
  match length (tasks s) with
  | O => None
  | S n => Some n
  end.

End Lifecycle.

(** ** The viewer over time *)

Module Session.
Import Viewer.

Inductive reachable : FileViewer -> Prop :=
| reachable_init : reachable Viewer.init
| reachable_step v ev v' :
    reachable v -> Viewer.step ev v = Some v' -> reachable v'.



End Session.

(** ** The auto-hiding toolbar ([FileViewer] lines 171-173, 224-237 and the
       handlers at lines 361-381, 422-452) *)

Module Toolbar.

(** A timer made by [setTimeout]: waiting to fire, cleared by
    [clearTimeout], or fired. *)
Inductive TimerStatus := Waiting | Cleared | Fired.

#[global] Instance TimerStatus_eq_dec : EqDecision TimerStatus.
Proof. solve_decision. Defined.

(** [timers] are all timers the component has made; the handle of the timer
    at position [k] is [k + 1], as the handles of [setTimeout] are positive
    integers. *)
Record State := mkToolbar {
  showToolbar : bool;
  toolbarTimeoutRef : option nat;
  timers : list TimerStatus
}.

Definition clear (st : TimerStatus) : TimerStatus :=
  match st with
  | Waiting => Cleared
  | _ => st
  end.

(** [clearTimeout(handle)]: no effect for [null], for a handle that names no
    timer, and for a timer that is not waiting. *)
Definition clearTimeout (handle : option nat) (ts : list TimerStatus)
  : list TimerStatus :=
  match handle with
  | Some (S k) => alter clear k ts
  | _ => ts
  end.

(** The truth value of [toolbarTimeoutRef.current]. *)
Definition truthy (handle : option nat) : bool :=
  match handle with
  | Some (S _) => true
  | _ => false
  end.

Definition setShowToolbar (b : bool) (s : State) : State :=
  mkToolbar b (toolbarTimeoutRef s) (timers s).

(** [if (toolbarTimeoutRef.current) clearTimeout(toolbarTimeoutRef.current)] *)
Definition clearCurrent (s : State) : State :=
  if truthy (toolbarTimeoutRef s)
  then mkToolbar (showToolbar s) (toolbarTimeoutRef s)
                 (clearTimeout (toolbarTimeoutRef s) (timers s))
  else s.

(** Lines 225-232. *)
Definition resetToolbarTimer (s : State) : State :=
  let s1 := clearCurrent s in
  mkToolbar (showToolbar s1) (Some (S (length (timers s1))))
            (timers s1 ++ [Waiting]).

(** [useState(true)], [useRef(null)] and the mount effect at lines 234-237. *)
Definition init : State := resetToolbarTimer (mkToolbar true None []).

(** The cleanup of the mount effect: [clearTimeout(toolbarTimeoutRef.current)]. *)
Definition unmount (s : State) : State :=
  mkToolbar (showToolbar s) (toolbarTimeoutRef s)
            (clearTimeout (toolbarTimeoutRef s) (timers s)).

Inductive Event :=
| ShowControls        (* the toggle button, lines 363-366 *)
| EnterToolbar        (* [onMouseEnter] of the toolbar, lines 377-380 *)
| LeaveToolbar        (* [onMouseLeave] of the toolbar, line 381 *)
| ZoomButton          (* [changeZoom], line 272 *)
| NotesButton         (* the notes toggle, lines 422-425 *)
| HideControls        (* the hide button, line 436 *)
| EnterTriggerZone    (* the strip at the top, lines 450-453 *)
| Timeout (handle : nat).   (* the callback of a waiting timer, line 230 *)

Definition step (ev : Event) (s : State) : option State :=
  match ev with
  | ShowControls | EnterTriggerZone =>
      Some (resetToolbarTimer (setShowToolbar true s))
  | EnterToolbar => Some (setShowToolbar true (clearCurrent s))
  | LeaveToolbar | ZoomButton | NotesButton => Some (resetToolbarTimer s)
  | HideControls => Some (setShowToolbar false s)
  | Timeout (S k) =>
      match timers s !! k with
      | Some Waiting =>
          Some (mkToolbar false (toolbarTimeoutRef s) (<[k := Fired]> (timers s)))
      | _ => None
      end
  | Timeout O => None
  end.

Inductive reachable : State -> Prop :=
| reachable_init : reachable init
| reachable_step s ev s' : reachable s -> step ev s = Some s' -> reachable s'.

Fixpoint run (evs : list Event) (s : State) : State :=
  match evs with
  | [] => s
  | ev :: evs' => run evs' (default s (step ev s))
  end.

End Toolbar.

(** ** Study files: [StudyFile] of types.ts and the file handlers of the
       application component *)

Module Files.

(** [lastOpened] is the [Date] as milliseconds since the epoch; [url] is
    absent when the property is missing or [undefined]. *)
Record StudyFile := mkFile {
  id : string;
  name : string;
  type : string;
  lastOpened : Z;
  size : string;
  url : option string
}.

Definition set_url (u : option string) (f : StudyFile) : StudyFile :=
  mkFile (id f) (name f) (type f) (lastOpened f) (size f) u.
Definition set_lastOpened (d : Z) (f : StudyFile) : StudyFile :=
  mkFile (id f) (name f) (type f) d (size f) (url f).

(** Everything of a file but its content. *)
Definition metadata (f : StudyFile) : string * string * string * Z * string :=
  (id f, name f, type f, lastOpened f, size f).

(** The truth value of [file.url]: present and not the empty string. *)
Definition has_url (f : StudyFile) : bool :=
  match url f with
  | Some u => negb (String.eqb u "")
  | None => false
  end.

(** The part of the application state the file handlers use. *)
Record App := mkApp {
  files : list StudyFile;
  currentFile : option StudyFile;
  activeMenuId : option string
}.

(** [handleUpdateFile] *)
Definition handleUpdateFile (i : string) (newUrl : string) (a : App) : App :=
  mkApp ((fun f => if String.eqb (id f) i then set_url (Some newUrl) f else f)
           <$> files a)
        (match currentFile a with
         | Some c => if String.eqb (id c) i
                     then Some (set_url (Some newUrl) c) else Some c
         | None => None
         end)
        (activeMenuId a).

(** [handleDeleteFile] *)
Definition handleDeleteFile (i : string) (a : App) : App :=
  mkApp (List.filter (fun f => negb (String.eqb (id f) i)) (files a))
        (match currentFile a with
         | Some c => if String.eqb (id c) i then None else Some c
         | None => None
         end)
        None.

(** [toggleMenu] *)
Definition toggleMenu (i : string) (a : App) : App :=
  mkApp (files a) (currentFile a)
        (match activeMenuId a with
         | Some j => if String.eqb j i then None else Some i
         | None => Some i
         end).

(** [openFile], called with an element of [files]; [now] is [new Date()]. *)
Definition openFile (file : StudyFile) (now : Z) (a : App) : App :=
  mkApp ((fun f => if String.eqb (id f) (id file)
                   then set_lastOpened now f else f) <$> files a)
        (Some file)
        (activeMenuId a).

(** [onBack], the sidebar button and [handleSearch]: [setCurrentFile(null)]. *)
Definition closeFile (a : App) : App :=
  mkApp (files a) None (activeMenuId a).

(** The last of the segments [name.split('.')] gives, scanning from the
    left with the segment read so far in [acc]. *)
Fixpoint last_segment (s : string) (acc : string) : string :=
  match s with
  | EmptyString => acc
  | String c s' =>
      if Ascii.eqb c "."%char then last_segment s' EmptyString
      else last_segment s' (acc ++ String c EmptyString)
  end.

Fixpoint dotfree (s : string) : bool :=
  match s with
  | EmptyString => true
  | String c s' => negb (Ascii.eqb c "."%char) && dotfree s'
  end.

(** [file.name.split('.').pop() || 'file'] *)
Definition extension (fname : string) : string :=
  let seg := last_segment fname EmptyString in
  if String.eqb seg "" then "file"%string else seg.

(** The [onload] handler of [handleFileUpload]: [newId] is the random id,
    [sizeText] the formatted size, [base64Url] the data URL read. *)
Definition handleFileUpload (newId fname sizeText : string) (now : Z)
    (base64Url : string) (a : App) : App :=
  mkApp (mkFile newId fname (extension fname) now sizeText (Some base64Url)
         :: files a)
        (currentFile a) (activeMenuId a).

(** [file.url && file.url.length < 500 * 1024] *)
Definition isSmall (f : StudyFile) : bool :=
  match url f with
  | Some u => negb (String.eqb u "")
              && (Z.of_nat (String.length u) <? 500 * 1024)%Z
  | None => false
  end.

(** What the persistence effect writes to [localStorage]. *)
Definition filesToSave (fs : list StudyFile) : list StudyFile :=
  (fun f => if isSmall f then f else set_url None f) <$> fs.

Inductive Event :=
| Upload (newId fname sizeText : string) (now : Z) (base64Url : string)
| Open (position : nat) (now : Z)      (* a click on the card at [position] *)
| Close
| UpdateFile (i : string) (newUrl : string)
| DeleteFile (i : string)
| ToggleMenu (i : string).

Definition step (ev : Event) (a : App) : option App :=
  match ev with
  | Upload newId fname sizeText now base64Url =>
      Some (handleFileUpload newId fname sizeText now base64Url a)
  | Open position now =>
      match files a !! position with
      | Some file => Some (openFile file now a)
      | None => None
      end
  | Close => Some (closeFile a)
  | UpdateFile i newUrl => Some (handleUpdateFile i newUrl a)
  | DeleteFile i => Some (handleDeleteFile i a)
  | ToggleMenu i => Some (toggleMenu i a)
  end.

(** The application with any list of files loaded and no file open. *)
Inductive reachable : App -> Prop :=
| reachable_start fs : reachable (mkApp fs None None)
| reachable_step a ev a' : reachable a -> step ev a = Some a' -> reachable a'.

End Files.

(** ** What the viewer shows: [renderContent] ([FileViewer] lines 275-355) *)

Module Content.
Import Files.

Inductive Content :=
| RestorePrompt
| LoadingSpinner
| ErrorMessage (msg : string)
| PageList
| Image
| Frame.

(** [String.prototype.toLowerCase] on the letters A to Z; other characters
    are kept. No other character lowers to one of the letters of the type
    names compared below. *)
Definition lower (c : ascii) : ascii :=
  let n := nat_of_ascii c in
  if (65 <=? n)%nat && (n <=? 90)%nat then ascii_of_nat (n + 32) else c.

Fixpoint toLowerCase (s : string) : string :=
  match s with
  | EmptyString => EmptyString
  | String c s' => String (lower c) (toLowerCase s')
  end.

Definition imageTypes : list string :=
  ["jpg"; "jpeg"; "png"; "gif"; "webp"]%string.

Definition renderContent (file : StudyFile) (v : Viewer.FileViewer) : Content :=
  if negb (has_url file) then RestorePrompt
  else if Viewer.loading v then LoadingSpinner
  else
    match Viewer.error v with
    | Some msg =>
        if negb (String.eqb msg "") then ErrorMessage msg
        else if String.eqb (toLowerCase (type file)) "pdf"
                && bool_decide (is_Some (Viewer.pdfDoc v)) then PageList
        else if existsb (String.eqb (toLowerCase (type file))) imageTypes
             then Image else Frame
    | None =>
        if String.eqb (toLowerCase (type file)) "pdf"
           && bool_decide (is_Some (Viewer.pdfDoc v)) then PageList
        else if existsb (String.eqb (toLowerCase (type file))) imageTypes
             then Image else Frame
    end.

End Content.

(** ** Sample files *)

Module Samples.
Import Files.

(** The two default files of the application, with short contents. *)
Definition welcome : StudyFile :=
  mkFile "1" "Welcome_Guide.pdf" "pdf" 0 "120 KB"
         (Some "data:application/pdf;base64,JVBERi0xLjcK"%string).

Definition notes : StudyFile :=
  mkFile "2" "Project_Notes.txt" "txt" 0 "1 KB"
         (Some "data:text/plain;base64,VGhpcw=="%string).

(** A file read back from storage without its content. *)
Definition stripped : StudyFile :=
  mkFile "3" "Lecture.PDF" "PDF" 0 "2.40 MB" None.

Definition start : App := mkApp [welcome; notes; stripped] None None.

End Samples.

(** * Properties *)

(** ** Comparison of JavaScript numbers *)

Lemma Qlt_bool_iff (x y : Q) : Qlt_bool x y = true <-> x < y.
Proof.
  unfold Qlt_bool. rewrite negb_true_iff.
  destruct (Qle_bool y x) eqn:E.
  - apply Qle_bool_iff in E. split; [discriminate | lra].
  - split; [intros _ | reflexivity].
    destruct (Qlt_le_dec x y) as [H|H]; [exact H|].
    apply Qle_bool_iff in H. congruence.
Qed.

Lemma Qlt_bool_false (x y : Q) : Qlt_bool x y = false <-> y <= x.
Proof.
  unfold Qlt_bool. rewrite negb_false_iff. apply Qle_bool_iff.
Qed.


(** ** Current-page selection *)

Section CurrentPage.
Import Visibility.

(** What the [forEach] scan returns from any starting pair: either no entry
    exceeds the starting maximum and the pair is unchanged, or the result is
    the first entry, in insertion order, that attains the maximum. *)
Lemma fold_visit_spec (m : VisibilityRecord) (r0 : Q) (p0 : nat) :
  let '(r, p) := fold_left visit m (r0, p0) in
  (Forall (fun e => snd e <= r0) m /\ r = r0 /\ p = p0)
  \/ (exists i, m !! i = Some (p, r) /\ r0 < r
        /\ Forall (fun e => snd e <= r) m
        /\ Forall (fun e => snd e < r) (take i m)).
Proof.
  revert r0 p0. induction m as [|[k w] m IH]; intros r0 p0; simpl.
  - left. repeat split; constructor.
  - destruct (Qlt_bool r0 w) eqn:E.
    + apply Qlt_bool_iff in E. specialize (IH w k).
      destruct (fold_left visit m (w, k)) as [r p].
      destruct IH as [(Hall & -> & ->) | (i & Hi & Hlt & Hall & Hpre)]; right.
      * exists 0%nat. simpl. repeat split; try assumption.
        -- constructor; [simpl; lra | assumption].
        -- constructor.
      * exists (S i). simpl. repeat split; try assumption.
        -- lra.
        -- constructor; [simpl; lra | assumption].
        -- constructor; [simpl; lra | assumption].
    + apply Qlt_bool_false in E. specialize (IH r0 p0).
      destruct (fold_left visit m (r0, p0)) as [r p].
      destruct IH as [(Hall & -> & ->) | (i & Hi & Hlt & Hall & Hpre)].
      * left. repeat split. constructor; [simpl; lra | assumption].
      * right. exists (S i). simpl. repeat split; try assumption.
        -- constructor; [simpl; lra | assumption].
        -- constructor; [simpl; lra | assumption].
Qed.

Lemma handleUpdateCurrentPage_record (s : State) (pageNum : nat) (ratio : Q) :
  pageVisibilityRef (handleUpdateCurrentPage s pageNum ratio)
  = map_set (pageVisibilityRef s) pageNum ratio.
Proof. unfold handleUpdateCurrentPage. by destruct (negb _). Qed.

Lemma handleUpdateCurrentPage_current (s : State) (pageNum : nat) (ratio : Q) :
  currentPage (handleUpdateCurrentPage s pageNum ratio)
  = mostVisiblePage (map_set (pageVisibilityRef s) pageNum ratio) (currentPage s).
Proof.
  unfold handleUpdateCurrentPage.
  destruct (Nat.eqb_spec
    (mostVisiblePage (map_set (pageVisibilityRef s) pageNum ratio) (currentPage s))
    (currentPage s)) as [E|E]; simpl; congruence.
Qed.



Lemma run_snoc (us : list (nat * Q)) (u : nat * Q) :
  run (us ++ [u]) = handleUpdateCurrentPage (run us) (fst u) (snd u).
Proof. unfold run. by rewrite fold_left_app. Qed.




(** The example of the specification: ratios 0.4, 0.9 and 0.9 for pages 1,
    2 and 3, recorded in page order, make page 2 the current page. *)
Example current_page_of_example :
  currentPage (run [(1%nat, 4 # 10); (2%nat, 9 # 10); (3%nat, 9 # 10)]) = 2%nat.
Proof. reflexivity. Qed.






End CurrentPage.

(** ** Scale resolution and canvas sizing *)

Section Scale.
Import Geometry.



Lemma initialScale_le_1 (innerWidth : Q) (showNotes : bool) (naturalWidth : Q) :
  initialScale innerWidth showNotes naturalWidth <= 1.
Proof. unfold initialScale. apply Q.le_min_r. Qed.





(** C10: only [changeZoom] clamps the scale to [0.2, 5.0]; the scale set on
    load is at most 1 but, for an available width below 20% of the natural
    width of page 1, strictly below 0.2. *)
Theorem initial_scale_below_min_zoom
    (innerWidth : Q) (showNotes : bool) (naturalWidth prev delta : Q) :
  0 < naturalWidth ->
  availableWidth innerWidth showNotes < (2 # 10) * naturalWidth ->
  initialScale innerWidth showNotes naturalWidth < 2 # 10
  /\ initialScale innerWidth showNotes naturalWidth <= 1
  /\ (2 # 10 <= changeZoom prev delta /\ changeZoom prev delta <= 5).
Proof.
  intros Hpos Hlt. split; [|split; [apply initialScale_le_1|]].
  - unfold initialScale. eapply Qle_lt_trans; [apply Q.le_min_l|].
    apply Qlt_shift_div_r; assumption.
  - unfold changeZoom. split; [apply Q.le_max_l|].
    apply Q.max_lub; [discriminate | apply Q.le_min_l].
Qed.

Lemma initial_scale_below_min_zoom_witness :
  initialScale 148 false 1000 < 2 # 10
  /\ initialScale 148 false 1000 <= 1
  /\ (2 # 10 <= changeZoom (1 # 10) (-1 # 10) /\ changeZoom (1 # 10) (-1 # 10) <= 5).
Proof.
  apply (initial_scale_below_min_zoom 148 false 1000 (1 # 10) (-1 # 10));
    reflexivity.
Defined.

End Scale.

(** ** Render tasks of one page *)

Section RenderTasks.
Import Page.

Lemma run_reachable (evs : list Event) (s s' : PDFPage) :
  reachable s -> run evs s = Some s' -> reachable s'.
Proof.
  revert s. induction evs as [|ev evs IH]; intros s Hs Hrun; simpl in Hrun.
  - by injection Hrun as <-.
  - destruct (apply ev s) as [s1|] eqn:E; [|done].
    eapply IH; [|exact Hrun]. by eapply reachable_apply.
Qed.

Lemma latest_only_issue (s : PDFPage) (sc : Q) (t : nat) (task : RenderTask) :
  latest_only s -> issued sc s !! t = Some task ->
  task_status task = Running -> t = length (tasks s).
Proof.
  intros Hinv Hl Hrun. unfold issued in Hl.
  apply lookup_app_Some in Hl as [Hl | [Hge Hl]].
  - exfalso. destruct (renderTaskRef s) as [r|] eqn:Er.
    + destruct (decide (r = t)) as [->|Hne].
      * rewrite list_lookup_alter_eq in Hl.
        destruct (tasks s !! t) as [old|] eqn:Eo; [|done].
        injection Hl as <-. unfold cancel in Hrun.
        destruct (task_status old) eqn:Es; simpl in Hrun; congruence.
      * rewrite list_lookup_alter_ne in Hl by done.
        specialize (Hinv _ _ Hl Hrun). congruence.
    + specialize (Hinv _ _ Hl Hrun). congruence.
  - apply lookup_lt_Some in Hl. simpl in Hl.
    destruct (renderTaskRef s); rewrite ?length_alter in *; lia.
Qed.

Lemma latest_only_settle (s : PDFPage) (st : TaskStatus) (t t' : nat)
    (task : RenderTask) :
  st <> Running -> latest_only s ->
  alter (settle st) t (tasks s) !! t' = Some task ->
  task_status task = Running -> renderTaskRef s = Some t'.
Proof.
  intros Hst Hinv Hl Hrun. destruct (decide (t = t')) as [->|Hne].
  - rewrite list_lookup_alter_eq in Hl.
    destruct (tasks s !! t'); [|done]. injection Hl as <-. done.
  - rewrite list_lookup_alter_ne in Hl by done. by eapply Hinv.
Qed.

(** [render] between its awaits either issues no task, or cancels the task
    behind [renderTaskRef] and issues one that it stores there. *)
Lemma renderBody_tasks (i : nat) (c : Call) (natural : Q * Q) (dpr : Q)
    (ctx : bool) (s : PDFPage) :
  let s' := renderBody i c natural dpr ctx s in
  (tasks s' = tasks s /\ renderTaskRef s' = renderTaskRef s)
  \/ (tasks s' = issued (call_scale c) s
      /\ renderTaskRef s' = Some (length (tasks s))).
Proof.
  unfold renderBody, setPageHeight, catchRender, mounted, issued.
  destruct s as [d pn sc v r h cv ref ts cs co]; simpl.
  destruct (falsy (call_pageHeight c)), cv as [cv|], ctx; simpl;
    try (left; split; reflexivity);
    try (destruct (negb _); left; split; reflexivity).
  all: right; destruct ref as [t|]; simpl; split; try reflexivity.
  all: by rewrite ?length_alter.
Qed.

Lemma awaited_Some (st : TaskStatus) (i : nat) (s : PDFPage) (t : nat) :
  awaited st i s = Some t ->
  exists c task, calls s !! i = Some c /\ call_phase c = AwaitTask t
    /\ tasks s !! t = Some task /\ task_status task = st.
Proof.
  unfold awaited. intros H.
  destruct (calls s !! i) as [[sc h [|t0]]|]; try done.
  destruct (tasks s !! t0) as [task|] eqn:Et; [|done].
  case_bool_decide; [|done]. injection H as <-.
  exists (mkCall sc h (AwaitTask t0)), task. done.
Qed.

Lemma latest_only_apply (s : PDFPage) (ev : Event) (s' : PDFPage) :
  latest_only s -> apply ev s = Some s' -> latest_only s'.
Proof.
  intros Hinv Hstep. destruct ev as [b|sc| |a]; simpl in Hstep.
  - destruct (mounted s); [|done]. injection Hstep as <-.
    unfold intersect, renderEffect. repeat case_match; exact Hinv.
  - destruct (mounted s); [|done]. injection Hstep as <-.
    unfold setScale, renderEffect. repeat case_match; exact Hinv.
  - destruct (mounted s); [|done]. injection Hstep as <-. exact Hinv.
  - destruct a as [i nat dpr ctx|i name|i|i name|i]; simpl in Hstep.
    + destruct (calls s !! i) as [[sc h [|t]]|]; try done.
      injection Hstep as <-.
      destruct (renderBody_tasks i (mkCall sc h AwaitGetPage) nat dpr ctx s)
        as [[Ht Hr] | [Ht Hr]]; unfold latest_only; rewrite Ht, Hr.
      * exact Hinv.
      * intros t task Hl Hrun. f_equal. symmetry.
        by apply (latest_only_issue s sc t task).
    + destruct (calls s !! i) as [[sc h [|t]]|]; try done.
      injection Hstep as <-. unfold catchRender. case_match; exact Hinv.
    + destruct (awaited Running i s) as [t|]; [|done].
      injection Hstep as <-. unfold setIsRendered.
      intros t' task. case_match; simpl; by apply latest_only_settle.
    + destruct (awaited Running i s) as [t|]; [|done].
      injection Hstep as <-. unfold catchRender.
      intros t' task. case_match; simpl; by apply latest_only_settle.
    + destruct (awaited Cancelled i s) as [t|]; [|done].
      injection Hstep as <-. exact Hinv.
Qed.

Lemma reachable_latest_only (s : PDFPage) : reachable s -> latest_only s.
Proof.
  induction 1 as [doc page sc | s ev s' _ IH Hstep].
  - intros t task Hl. simpl in Hl. by rewrite lookup_nil in Hl.
  - by eapply latest_only_apply.
Qed.

(** The resumption of a call whose task was cancelled removes the call and
    changes nothing else. *)
Lemma step_TaskCancelled (s : PDFPage) (i : nat) (s' : PDFPage) :
  step (TaskCancelled i) s = Some s' -> s' = set_calls (delete i (calls s)) s.
Proof.
  simpl. destruct (awaited Cancelled i s); [|done]. by intros [= <-].
Qed.

Lemma scenario_rescaled_reachable :
  reachable (Scenario.after Scenario.rescaled Scenario.page1).
Proof.
  apply (run_reachable Scenario.rescaled Scenario.page1);
    [constructor | by vm_compute].
Qed.

Lemma scenario_superseded_reachable :
  reachable (Scenario.after Scenario.superseded Scenario.page1).
Proof.
  apply (run_reachable Scenario.superseded Scenario.page1);
    [constructor | by vm_compute].
Qed.

(** C3 (as amended): once a newer render task has been issued for a page,
    the call of [render] that waits for an older task can no longer mark the
    page rendered: the older task is cancelled, the call cannot resume with
    a completion, and its only resumption leaves [isRendered], the canvas,
    the view and the console as they are. *)
Theorem superseded_render_is_discarded
    (s : PDFPage) (i t : nat) (c : Call) :
  reachable s ->
  calls s !! i = Some c ->
  call_phase c = AwaitTask t ->
  renderTaskRef s <> Some t ->
  step (TaskResolved i) s = None
  /\ forall a s', call_of a = i -> step a s = Some s' ->
       a = TaskCancelled i
       /\ isRendered s' = isRendered s /\ canvasRef s' = canvasRef s
       /\ view s' = view s /\ console s' = console s.
Proof.
  intros Hreach Hcall Hphase Hnot.
  apply reachable_latest_only in Hreach.
  assert (Hrun : awaited Running i s = None).
  { destruct (awaited Running i s) as [t'|] eqn:E; [|done].
    apply awaited_Some in E as (c' & task & Hc' & Hp' & Htask & Hst).
    assert (t' = t) as -> by congruence.
    by specialize (Hreach _ _ Htask Hst). }
  split; [simpl; by rewrite Hrun|].
  intros a s' <- Hstep.
  destruct a as [j nat dpr ctx|j name|j|j name|j];
    cbn [call_of] in Hcall, Hrun |- *.
  - simpl in Hstep. rewrite Hcall in Hstep.
    destruct c as [sc h ph]. simpl in Hphase. by subst ph.
  - simpl in Hstep. rewrite Hcall in Hstep.
    destruct c as [sc h ph]. simpl in Hphase. by subst ph.
  - simpl in Hstep. by rewrite Hrun in Hstep.
  - simpl in Hstep. by rewrite Hrun in Hstep.
  - apply step_TaskCancelled in Hstep as ->. done.
Qed.

Lemma superseded_render_is_discarded_witness :
  step (TaskResolved 0)
       (Scenario.after Scenario.superseded Scenario.page1) = None.
Proof.
  apply (superseded_render_is_discarded
           (Scenario.after Scenario.superseded Scenario.page1)
           0 0 (mkCall 1 None (AwaitTask 0))).
  - exact scenario_superseded_reachable.
  - vm_compute. reflexivity.
  - reflexivity.
  - vm_compute. discriminate.
Defined.

(** C3 (as stated) fails: the scale changes from 1 to 1/2 while the render
    at scale 1 is in flight; before the render at 1/2 is issued the render at
    1 completes, and the page becomes rendered from it. *)
Lemma stale_completion_marks_rendered :
  let s := Scenario.after Scenario.rescaled Scenario.page1 in
  let s' := Scenario.after
              (Scenario.rescaled ++ [Resume (TaskResolved 0)]) Scenario.page1 in
  run Scenario.rescaled Scenario.page1 = Some s
  /\ scale s = 1 # 2
  /\ tasks s = [mkTask 1 Running]
  /\ isRendered s = false
  /\ step (TaskResolved 0) s = Some s'
  /\ isRendered s' = true
  /\ scale s' = 1 # 2
  /\ tasks s' = [mkTask 1 Finished].
Proof. by vm_compute. Qed.

(** C4: a page never has two running render tasks; and when [render]
    issues a task, any task still running is cancelled by it and the new
    task is the one [renderTaskRef] points to. *)
Theorem at_most_one_running_task (s : PDFPage) :
  reachable s ->
  (forall t1 t2 task1 task2,
     tasks s !! t1 = Some task1 -> tasks s !! t2 = Some task2 ->
     task_status task1 = Running -> task_status task2 = Running ->
     t1 = t2)
  /\ (forall i natural dpr ctx s',
       step (GetPageResolved i natural dpr ctx) s = Some s' ->
       tasks s' <> tasks s ->
       exists sc,
         tasks s' = issued sc s
         /\ tasks s' !! length (tasks s) = Some (mkTask sc Running)
         /\ renderTaskRef s' = Some (length (tasks s))
         /\ forall t task, tasks s !! t = Some task ->
              task_status task = Running ->
              tasks s' !! t = Some (mkTask (task_scale task) Cancelled)).
Proof.
  intros Hreach. apply reachable_latest_only in Hreach. split.
  - intros t1 t2 task1 task2 H1 H2 R1 R2.
    pose proof (Hreach _ _ H1 R1). pose proof (Hreach _ _ H2 R2). congruence.
  - intros i natural dpr ctx s' Hstep Hne. simpl in Hstep.
    destruct (calls s !! i) as [[sc h [|t]]|]; try done.
    injection Hstep as <-.
    destruct (renderBody_tasks i (mkCall sc h AwaitGetPage) natural dpr ctx s)
      as [[Ht Hr] | [Ht Hr]]; [done|].
    exists sc. simpl in Ht. rewrite Ht, Hr. repeat split.
    + unfold issued. rewrite lookup_app_r;
        destruct (renderTaskRef s); rewrite ?length_alter; try lia;
        by rewrite Nat.sub_diag.
    + intros t task Hl Hrun. unfold issued. rewrite (Hreach _ _ Hl Hrun).
      rewrite lookup_app_l by (rewrite length_alter; by eapply lookup_lt_Some).
      rewrite list_lookup_alter_eq, Hl. simpl. unfold cancel. by rewrite Hrun.
Qed.

Lemma at_most_one_running_task_witness :
  let s := Scenario.after Scenario.rescaled Scenario.page1 in
  let s' := Scenario.after Scenario.superseded Scenario.page1 in
  exists sc,
    tasks s' = issued sc s
    /\ tasks s' !! length (tasks s) = Some (mkTask sc Running)
    /\ renderTaskRef s' = Some (length (tasks s)).
Proof.
  intros s s'.
  destruct (at_most_one_running_task s scenario_rescaled_reachable) as [_ H].
  destruct (H 1%nat Scenario.a4 1 true s') as (sc & H1 & H2 & H3 & _).
  - by vm_compute.
  - vm_compute. discriminate.
  - exists sc. auto.
Defined.

End RenderTasks.

(** ** Outcomes of a render and the viewer around the pages *)

Section Outcomes.
Import Page Viewer.

(** The resumption of a call of [render] of a page in the tree replaces
    that page's state and nothing else of the viewer. *)
Lemma step_PageResume (v : FileViewer) (p : nat) (a : Async) (v' : FileViewer) :
  Viewer.step (PageResume p a) v = Some v' ->
  exists pg pg',
    pages v !! (p - 1)%nat = Some pg /\ Page.step a pg = Some pg'
    /\ v' = set_pages (<[(p - 1)%nat := pg']> (pages v)) v.
Proof.
  intros H. cbn [Viewer.step] in H.
  destruct (pages v !! (p - 1)%nat) as [pg|] eqn:Hl; [|done].
  destruct (Page.step a pg) as [pg'|] eqn:Hst; [|done].
  injection H as <-. by exists pg, pg'.
Qed.


(** C5: the resumption of a call whose render task was cancelled only ends
    that call: the page's console, tasks, [isRendered] and view stay as they
    are, the cancelled task cannot be reported as failed, and in the viewer
    neither [error] nor the console changes. *)
Theorem cancellation_is_silent (s : PDFPage) (i : nat) (s' : PDFPage) :
  Page.step (TaskCancelled i) s = Some s' ->
  (s' = set_calls (delete i (calls s)) s
   /\ Page.console s' = Page.console s /\ tasks s' = tasks s
   /\ isRendered s' = isRendered s /\ view s' = view s)
  /\ (forall name, Page.step (TaskRejected i name) s = None)
  /\ (forall v p v',
        pages v !! (p - 1)%nat = Some s ->
        Viewer.step (PageResume p (TaskCancelled i)) v = Some v' ->
        error v' = error v /\ Viewer.console v' = Viewer.console v
        /\ pages v' = <[(p - 1)%nat := s']> (pages v)).
Proof.
  intros Hstep. split; [|split].
  - apply step_TaskCancelled in Hstep as ->. done.
  - intros name. simpl in *.
    destruct (awaited Cancelled i s) as [t|] eqn:Ec; [|done].
    destruct (awaited Running i s) as [t'|] eqn:Er; [|done].
    apply awaited_Some in Ec as (c & task & Hc & Hp & Ht & Hs).
    apply awaited_Some in Er as (c' & task' & Hc' & Hp' & Ht' & Hs').
    congruence.
  - intros v p v' Hpg Hv.
    apply step_PageResume in Hv as (pg & pg' & Hl & Hst & ->).
    assert (pg = s) as -> by congruence.
    assert (pg' = s') as -> by congruence. done.
Qed.

Lemma cancellation_is_silent_witness :
  let s := Scenario.after Scenario.superseded Scenario.page1 in
  let s' := Scenario.after
              (Scenario.superseded ++ [Resume (TaskCancelled 0)])
              Scenario.page1 in
  Page.console s' = Page.console s /\ tasks s' = tasks s
  /\ isRendered s' = isRendered s /\ view s' = view s.
Proof.
  intros s s'.
  destruct (cancellation_is_silent s 0 s') as [(_ & H) _];
    [by vm_compute | exact H].
Defined.

(** C9 (as amended): a render task that fails with an error other than a
    cancellation is written to the console and nothing more: the page keeps
    its [isRendered] flag and its view, no call of [render] is started again,
    and the viewer's [error], the other pages and the visibility tracking
    are untouched. *)
Theorem render_failure_is_logged_only
    (v : FileViewer) (p i : nat) (name : string) (v' : FileViewer) :
  Viewer.step (PageResume p (TaskRejected i name)) v = Some v' ->
  name <> "RenderingCancelledException"%string ->
  (error v' = error v /\ loading v' = loading v /\ tracking v' = tracking v
   /\ Viewer.console v' = Viewer.console v /\ detached v' = detached v)
  /\ (forall q, q <> (p - 1)%nat -> pages v' !! q = pages v !! q)
  /\ exists pg pg',
       pages v !! (p - 1)%nat = Some pg /\ pages v' !! (p - 1)%nat = Some pg'
       /\ Page.console pg' = Page.console pg ++ [(pageNum pg, name)]
       /\ isRendered pg' = isRendered pg /\ pageHeight pg' = pageHeight pg
       /\ view pg' = view pg
       /\ calls pg' = delete i (calls pg).
Proof.
  intros Hv Hname.
  apply step_PageResume in Hv as (pg & pg' & Hl & Hst & ->).
  split; [done|]. split.
  - intros q Hq. simpl. by rewrite list_lookup_insert_ne.
  - exists pg, pg'. split; [exact Hl|]. split.
    { simpl. apply list_lookup_insert_eq. by eapply lookup_lt_Some. }
    simpl in Hst. destruct (awaited Running i pg) as [t|]; [|done].
    injection Hst as <-. unfold catchRender.
    apply String.eqb_neq in Hname. rewrite Hname. done.
Qed.

Lemma render_failure_is_logged_only_witness :
  let v := Scenario.afterV Scenario.threePages Viewer.init in
  let v' := Scenario.afterV
              (Scenario.threePages
               ++ [PageResume 3 (TaskRejected 0 "InvalidPDFException")])
              Viewer.init in
  error v' = error v /\ loading v' = loading v /\ tracking v' = tracking v
  /\ Viewer.console v' = Viewer.console v /\ detached v' = detached v.
Proof.
  intros v v'.
  apply (render_failure_is_logged_only v 3 0 "InvalidPDFException" v');
    [by vm_compute | discriminate].
Defined.

(** C9 (as stated) fails: the render of page 3 fails with a decoding error;
    afterwards the page is not in a failed state and shows no error and no
    retry: its hooks and its view are what they were, the loading spinner
    over a placeholder, all three pages render as before, and no call of
    [render] is left to try again. *)
Lemma render_failure_not_shown :
  let v := Scenario.afterV Scenario.threePages Viewer.init in
  let v' := Scenario.afterV
              (Scenario.threePages
               ++ [PageResume 3 (TaskRejected 0 "InvalidPDFException")])
              Viewer.init in
  Viewer.step (PageResume 3 (TaskRejected 0 "InvalidPDFException")) v = Some v'
  /\ view <$> pages v' = view <$> pages v
  /\ view <$> pages v' !! 2%nat = Some (mkView 842 true)
  /\ isRendered <$> pages v' = [false; false; false]
  /\ pageHeight <$> pages v' = pageHeight <$> pages v
  /\ calls <$> pages v' = [[]; []; []]
  /\ error v' = None.
Proof. by vm_compute. Qed.




End Outcomes.

(** ** More on the visibility record *)

Section VisibilityRecord.
Import Visibility.

Lemma map_set_elem (m : VisibilityRecord) (k : nat) (v : Q) (q : nat) :
  q ∈ (map_set m k v).*1 <-> q = k \/ q ∈ m.*1.
Proof.
  induction m as [|[k' v'] m IH]; cbn [map_set].
  - rewrite !fmap_cons, elem_of_cons. simpl. tauto.
  - destruct (Nat.eqb_spec k' k) as [->|Hk]; rewrite !fmap_cons, !elem_of_cons;
      cbn [fst]; [tauto|]. rewrite IH. tauto.
Qed.

Lemma map_set_NoDup (m : VisibilityRecord) (k : nat) (v : Q) :
  NoDup (m.*1) -> NoDup ((map_set m k v).*1).
Proof.
  induction m as [|[k' v'] m IH]; cbn [map_set]; intros Hm.
  - apply NoDup_singleton.
  - rewrite fmap_cons in Hm. apply NoDup_cons in Hm as [Hk' Hm].
    destruct (Nat.eqb_spec k' k) as [->|Hk]; rewrite fmap_cons;
      apply NoDup_cons; cbn [fst]; [done|]. split; [|by apply IH].
    rewrite map_set_elem. intros [->|?]; done.
Qed.


(** The scan returns its starting page or a recorded page. *)
Lemma mostVisiblePage_start_or_key (m : VisibilityRecord) (c : nat) :
  mostVisiblePage m c = c \/ mostVisiblePage m c ∈ m.*1.
Proof.
  unfold mostVisiblePage, scan.
  pose proof (fold_visit_spec m 0 c) as H.
  destruct (fold_left visit m (0, c)) as [r p]. simpl.
  destruct H as [(_ & _ & ->) | (i & Hi & _)]; [by left | right].
  apply list_elem_of_lookup_2 in Hi.
  by apply (list_elem_of_fmap_2 fst) in Hi.
Qed.


(** X1: a visibility update records exactly the reported ratio for its page
    and leaves the recorded ratio of every other page as it was. *)
Theorem update_sets_one_ratio (s : State) (pageNum : nat) (ratio : Q) (q : nat) :
  ratio_of (pageVisibilityRef (handleUpdateCurrentPage s pageNum ratio)) q
  = if Nat.eqb q pageNum then ratio
    else ratio_of (pageVisibilityRef s) q.
Proof.
  rewrite handleUpdateCurrentPage_record.
  induction (pageVisibilityRef s) as [|[k' v'] m IH]; simpl.
  - rewrite (Nat.eqb_sym pageNum q). by destruct (Nat.eqb q pageNum).
  - destruct (Nat.eqb_spec k' pageNum) as [Ek|Hk]; simpl; rewrite ?IH;
      destruct (Nat.eqb_spec k' q), (Nat.eqb_spec q pageNum); congruence.
Qed.

(** X2: a visibility update never removes or reorders a recorded page: a
    page already in the record keeps its position, a new page is appended
    at the end. *)
Theorem update_keeps_insertion_order (s : State) (pageNum : nat) (ratio : Q) :
  (pageVisibilityRef (handleUpdateCurrentPage s pageNum ratio)).*1
  = if decide (pageNum ∈ (pageVisibilityRef s).*1)
    then (pageVisibilityRef s).*1
    else (pageVisibilityRef s).*1 ++ [pageNum].
Proof.
  rewrite handleUpdateCurrentPage_record.
  induction (pageVisibilityRef s) as [|[k' v'] m IH]; cbn [map_set].
  - case_decide as Hin; [|done]. simpl in Hin. by apply elem_of_nil in Hin.
  - destruct (Nat.eqb_spec k' pageNum) as [->|Hk]; rewrite !fmap_cons.
    + rewrite decide_True by apply list_elem_of_here. reflexivity.
    + rewrite IH. cbn [fst].
      destruct (decide (pageNum ∈ m.*1)) as [Hin|Hin].
      * rewrite decide_True by (by apply list_elem_of_further). reflexivity.
      * rewrite decide_False; [reflexivity|].
        intros [->|?]%elem_of_cons; done.
Qed.

(** X3: after any sequence of updates the record holds each page at most
    once, and the current page is page 1 or a recorded page. *)
Theorem record_pages_unique (us : list (nat * Q)) :
  NoDup ((pageVisibilityRef (run us)).*1)
  /\ (currentPage (run us) = 1%nat
      \/ currentPage (run us) ∈ (pageVisibilityRef (run us)).*1).
Proof.
  induction us as [|u us [IHn IHc]] using rev_ind.
  - split; [constructor | by left].
  - rewrite run_snoc, handleUpdateCurrentPage_current,
      handleUpdateCurrentPage_record.
    split; [by apply map_set_NoDup|].
    destruct (mostVisiblePage_start_or_key
                (map_set (pageVisibilityRef (run us)) u.1 u.2)
                (currentPage (run us))) as [-> | Hin]; [|by right].
    destruct IHc as [?|Hc]; [by left | right].
    apply map_set_elem. by right.
Qed.


End VisibilityRecord.

(** ** More on zooming and fitting *)

Section Zoom.
Import Geometry.


(** X5: a zoom command adds its step when the sum stays within [0.2, 5.0]
    and otherwise lands exactly on the nearer end of that range. *)
Theorem changeZoom_cases (prev delta : Q) :
  (2 # 10 <= prev + delta <= 5 -> changeZoom prev delta == prev + delta)
  /\ (prev + delta <= 2 # 10 -> changeZoom prev delta == 2 # 10)
  /\ (5 <= prev + delta -> changeZoom prev delta == 5).
Proof.
  unfold changeZoom. repeat split.
  - intros [Hlo Hhi]. rewrite Q.min_r by exact Hhi. by rewrite Q.max_r.
  - intros Hlo. rewrite Q.min_r by lra. by rewrite Q.max_l.
  - intros Hhi. rewrite Q.min_l by exact Hhi. rewrite Q.max_r; [reflexivity|].
    discriminate.
Qed.





(** X9: neither fit has a lower bound: a window narrower than the 48 pixels
    of padding (plus 384 with the notes open), or a container narrower than
    64 pixels, gives a negative scale. *)
Theorem fit_scale_can_be_negative
    (innerWidth : Q) (showNotes : bool) (containerWidth naturalWidth : Q) :
  0 < naturalWidth ->
  (availableWidth innerWidth showNotes < 0 ->
   initialScale innerWidth showNotes naturalWidth < 0)
  /\ (containerWidth < 64 -> adjustScale containerWidth naturalWidth < 0).
Proof.
  intros Hn. unfold initialScale, adjustScale. split; intros H.
  - eapply Qle_lt_trans; [apply Q.le_min_l|].
    apply Qlt_shift_div_r; lra.
  - eapply Qle_lt_trans; [apply Q.le_min_l|].
    apply Qlt_shift_div_r; lra.
Qed.

Lemma fit_scale_can_be_negative_witness :
  initialScale 400 true 1000 < 0 /\ adjustScale 50 1000 < 0.
Proof.
  destruct (fit_scale_can_be_negative 400 true 50 1000) as [H1 H2];
    [reflexivity|].
  split; [apply H1 | apply H2]; reflexivity.
Defined.



End Zoom.

(** ** More on the life of one page *)

Section PageLife.
Import Page Lifecycle.

Lemma renderBody_issue (i : nat) (c : Call) (natural : Q * Q) (dpr : Q)
    (ctx : bool) (s : PDFPage) :
  let s' := renderBody i c natural dpr ctx s in
  (mounted s && ctx = true
   /\ tasks s' = issued (call_scale c) s
   /\ renderTaskRef s' = Some (length (tasks s))
   /\ calls s' = <[i := mkCall (call_scale c) (call_pageHeight c)
                          (AwaitTask (length (tasks s)))]> (calls s)
   /\ console s' = console s
   /\ mounted s' = true)
  \/ (mounted s && ctx = false
      /\ tasks s' = tasks s
      /\ renderTaskRef s' = renderTaskRef s
      /\ calls s' = delete i (calls s)
      /\ console s' = (if mounted s then console s
                       else console s ++ [(pageNum s, "TypeError"%string)])
      /\ canvasRef s' = canvasRef s).
Proof.
  unfold renderBody, setPageHeight, catchRender, mounted, issued.
  destruct s as [d pn sc v r h cv ref ts cs co]; simpl.
  destruct (falsy (call_pageHeight c)), cv as [cv|], ctx; simpl;
    try (right; repeat split; reflexivity).
  all: left; destruct ref as [t|]; simpl; repeat split; try reflexivity.
  all: by rewrite ?length_alter.
Qed.

Lemma renderBody_hooks (i : nat) (c : Call) (natural : Q * Q) (dpr : Q)
    (ctx : bool) (s : PDFPage) :
  let s' := renderBody i c natural dpr ctx s in
  isVisible s' = isVisible s /\ isRendered s' = isRendered s
  /\ Page.scale s' = Page.scale s /\ Page.pdfDoc s' = Page.pdfDoc s
  /\ pageNum s' = pageNum s
  /\ mounted s' = mounted s
  /\ pageHeight s'
     = if mounted s && falsy (call_pageHeight c)
       then Some (Geometry.vp_height (Geometry.getViewport natural (call_scale c)))
       else pageHeight s.
Proof.
  unfold renderBody, setPageHeight, catchRender, mounted.
  destruct s as [d pn sc v r h cv ref ts cs co]; simpl.
  destruct (falsy (call_pageHeight c)), cv as [cv|], ctx; simpl;
    try destruct ref; simpl; repeat split; reflexivity.
Qed.

(** The synchronous operations only append a call that captured the
    current scale and height. *)
Lemma renderEffect_cases (s : PDFPage) :
  renderEffect s = s
  \/ (isVisible s = true /\ mounted s = true
      /\ renderEffect s
         = set_calls (calls s ++ [mkCall (Page.scale s) (pageHeight s)
                                         AwaitGetPage]) s).
Proof.
  unfold renderEffect.
  destruct (isVisible s), (mounted s),
    (bool_decide (is_Some (Page.pdfDoc s))); simpl; auto.
Qed.

Lemma step_call (a : Async) (s s' : PDFPage) :
  step a s = Some s' -> is_Some (calls s !! call_of a).
Proof.
  destruct a as [i nat dpr ctx|i name|i|i name|i]; simpl; unfold awaited;
    destruct (calls s !! i); try done; by eexists.
Qed.

(** What a resumption does to the hooks: it can only set [isRendered]. *)
Lemma step_hooks (a : Async) (s s' : PDFPage) :
  step a s = Some s' ->
  isVisible s' = isVisible s /\ Page.scale s' = Page.scale s
  /\ Page.pdfDoc s' = Page.pdfDoc s /\ pageNum s' = pageNum s
  /\ mounted s' = mounted s
  /\ (isRendered s' = isRendered s \/ isRendered s' = true).
Proof.
  destruct a as [i nat dpr ctx|i name|i|i name|i]; simpl.
  - destruct (calls s !! i) as [[sc h [|t]]|]; try done. intros [= <-].
    destruct (renderBody_hooks i (mkCall sc h AwaitGetPage) nat dpr ctx s)
      as (? & ? & ? & ? & ? & ? & _). auto 10.
  - destruct (calls s !! i) as [[sc h [|t]]|]; try done. intros [= <-].
    unfold catchRender. case_match; simpl; auto 10.
  - destruct (awaited Running i s); [|done]. intros [= <-].
    unfold setIsRendered, mounted. simpl. case_match; simpl; auto 10.
  - destruct (awaited Running i s); [|done]. intros [= <-].
    unfold catchRender. case_match; simpl; auto 10.
  - destruct (awaited Cancelled i s); [|done]. intros [= <-]. simpl. auto 10.
Qed.

Lemma apply_flags (s : PDFPage) (ev : Event) (s' : PDFPage) :
  apply ev s = Some s' ->
  (isVisible s' = isVisible s \/ isVisible s' = true)
  /\ (isRendered s' = isRendered s \/ isRendered s' = true).
Proof.
  intros Hstep. destruct ev as [b|sc| |a]; simpl in Hstep.
  - destruct (mounted s); [|done]. injection Hstep as <-.
    unfold intersect. case_match; [|auto].
    destruct (renderEffect_cases (set_isVisible true s)) as [-> | (_ & _ & ->)];
      simpl; auto.
  - destruct (mounted s); [|done]. injection Hstep as <-.
    unfold setScale. case_match; [auto|].
    destruct (renderEffect_cases (set_scale sc s)) as [-> | (_ & _ & ->)];
      simpl; auto.
  - destruct (mounted s); [|done]. injection Hstep as <-. simpl. auto.
  - apply step_hooks in Hstep as (-> & _ & _ & _ & _ & H). auto.
Qed.

(** X11: no event ever takes [isVisible] or [isRendered] back: a page that
    was rendered once shows no loading spinner again, also while it is
    rendered anew at another scale. *)
Theorem page_flags_only_rise (s : PDFPage) (ev : Event) (s' : PDFPage) :
  apply ev s = Some s' ->
  (isVisible s = true -> isVisible s' = true)
  /\ (isRendered s = true -> isRendered s' = true
      /\ spinner (view s') = false).
Proof.
  intros Hstep. destruct (apply_flags s ev s' Hstep) as [Hv Hr]. split.
  - intros E. destruct Hv; congruence.
  - intros E. assert (isRendered s' = true) as E' by (destruct Hr; congruence).
    split; [exact E' | simpl; by rewrite E'].
Qed.

Lemma page_flags_only_rise_witness :
  let s := Scenario.after
             (Scenario.rescaled ++ [Resume (TaskResolved 0)]) Scenario.page1 in
  let s' := Scenario.after
              (Scenario.rescaled
               ++ [Resume (TaskResolved 0);
                   Resume (GetPageResolved 0 Scenario.a4 1 true)])
              Scenario.page1 in
  isRendered s' = true /\ spinner (view s') = false.
Proof.
  intros s s'.
  apply (page_flags_only_rise s
           (Resume (GetPageResolved 0 Scenario.a4 1 true)) s');
    by vm_compute.
Defined.

Lemma issued_length (sc : Q) (s : PDFPage) :
  length (issued sc s) = S (length (tasks s)).
Proof.
  unfold issued. rewrite length_app. simpl.
  destruct (renderTaskRef s); rewrite ?length_alter; lia.
Qed.

(** What a resumption does to the task list: it keeps its length, or a
    render was issued and the list is one longer. *)
Lemma step_tasks_length (a : Async) (s s' : PDFPage) :
  step a s = Some s' ->
  (length (tasks s') = length (tasks s)
   /\ renderTaskRef s' = renderTaskRef s)
  \/ (length (tasks s') = S (length (tasks s))
      /\ renderTaskRef s' = Some (length (tasks s))).
Proof.
  destruct a as [i nat dpr ctx|i name|i|i name|i]; simpl.
  - destruct (calls s !! i) as [[sc h [|t]]|]; try done. intros [= <-].
    destruct (renderBody_issue i (mkCall sc h AwaitGetPage) nat dpr ctx s)
      as [(_ & Ht & Hr & _) | (_ & Ht & Hr & _)].
    + right. by rewrite Ht, Hr, issued_length.
    + left. by rewrite Ht, Hr.
  - destruct (calls s !! i) as [[sc h [|t]]|]; try done. intros [= <-].
    left. unfold catchRender. by case_match.
  - destruct (awaited Running i s); [|done]. intros [= <-].
    left. unfold setIsRendered. case_match; simpl; by rewrite length_alter.
  - destruct (awaited Running i s); [|done]. intros [= <-].
    left. unfold catchRender. case_match; simpl; by rewrite length_alter.
  - destruct (awaited Cancelled i s); [|done]. intros [= <-]. by left.
Qed.

Lemma apply_sync_tasks (ev : Event) (s s' : PDFPage) :
  apply ev s = Some s' ->
  (forall a, ev <> Resume a) ->
  tasks s' = tasks s /\ renderTaskRef s' = renderTaskRef s.
Proof.
  intros Hstep Hne. destruct ev as [b|sc| |a]; simpl in Hstep.
  - destruct (mounted s); [|done]. injection Hstep as <-.
    unfold intersect. case_match; [|done].
    by destruct (renderEffect_cases (set_isVisible true s))
      as [-> | (_ & _ & ->)].
  - destruct (mounted s); [|done]. injection Hstep as <-.
    unfold setScale. case_match; [done|].
    by destruct (renderEffect_cases (set_scale sc s)) as [-> | (_ & _ & ->)].
  - destruct (mounted s); [|done]. by injection Hstep as <-.
  - by destruct (Hne a).
Qed.

(** X12: [renderTaskRef] is never cleared: in every state a page can reach
    it is empty exactly until the first render is issued and from then on
    points to the render task issued last, whether that task is still
    running or not. *)
Theorem renderTaskRef_is_last_task (s : PDFPage) :
  reachable s -> renderTaskRef s = last_task s.
Proof.
  induction 1 as [doc page sc | s ev s' _ IH Hstep]; [reflexivity|].
  unfold last_task in *. destruct ev as [b|sc| |a].
  1-3: destruct (apply_sync_tasks _ s s' Hstep) as [-> ->];
    [intros a; discriminate | exact IH].
  simpl in Hstep.
  destruct (step_tasks_length a s s' Hstep) as [[-> ->] | [-> ->]];
    [exact IH | reflexivity].
Qed.

Lemma renderTaskRef_is_last_task_witness :
  renderTaskRef (Scenario.after Scenario.superseded Scenario.page1)
  = last_task (Scenario.after Scenario.superseded Scenario.page1).
Proof.
  apply renderTaskRef_is_last_task. exact scenario_superseded_reachable.
Defined.

(** What a resumption does to the suspended calls: the resumed call ends,
    or it was waiting for [getPage] and now waits for the task it issued. *)
Lemma step_calls (a : Async) (s s' : PDFPage) :
  step a s = Some s' ->
  calls s' = delete (call_of a) (calls s)
  \/ exists sc h,
       calls s !! call_of a = Some (mkCall sc h AwaitGetPage)
       /\ calls s' = <[call_of a := mkCall sc h (AwaitTask (length (tasks s)))]>
                      (calls s)
       /\ tasks s' = issued sc s.
Proof.
  destruct a as [i nat dpr ctx|i name|i|i name|i]; simpl.
  - destruct (calls s !! i) as [[sc h [|t]]|] eqn:Hc; try done. intros [= <-].
    destruct (renderBody_issue i (mkCall sc h AwaitGetPage) nat dpr ctx s)
      as [(_ & Ht & _ & Hcalls & _) | (_ & _ & _ & Hcalls & _)].
    + right. by exists sc, h.
    + by left.
  - destruct (calls s !! i) as [[sc h [|t]]|]; try done. intros [= <-].
    left. unfold catchRender. by case_match.
  - destruct (awaited Running i s); [|done]. intros [= <-].
    left. unfold setIsRendered. by case_match.
  - destruct (awaited Running i s); [|done]. intros [= <-].
    left. unfold catchRender. by case_match.
  - destruct (awaited Cancelled i s); [|done]. intros [= <-]. by left.
Qed.

Lemma step_pageHeight (a : Async) (s s' : PDFPage) :
  step a s = Some s' ->
  pageHeight s' = pageHeight s
  \/ exists sc h, calls s !! call_of a = Some (mkCall sc h AwaitGetPage)
                  /\ falsy h = true.
Proof.
  destruct a as [i nat dpr ctx|i name|i|i name|i]; simpl.
  - destruct (calls s !! i) as [[sc h [|t]]|] eqn:Hc; try done. intros [= <-].
    destruct (renderBody_hooks i (mkCall sc h AwaitGetPage) nat dpr ctx s)
      as (_ & _ & _ & _ & _ & _ & Hh).
    simpl in Hh. destruct (falsy h) eqn:Ef.
    + right. by exists sc, h.
    + left. rewrite Hh. by rewrite andb_false_r.
  - destruct (calls s !! i) as [[sc h [|t]]|]; try done. intros [= <-].
    left. unfold catchRender. by case_match.
  - destruct (awaited Running i s); [|done]. intros [= <-].
    left. unfold setIsRendered. by case_match.
  - destruct (awaited Running i s); [|done]. intros [= <-].
    left. unfold catchRender. by case_match.
  - destruct (awaited Cancelled i s); [|done]. intros [= <-]. by left.
Qed.

(** X13: the placeholder height is measured once: when it is set and no
    call that captured an unset height still waits for [getPage], no event
    changes it any more, at whatever scale the page is rendered later. *)
Theorem page_height_is_kept (s : PDFPage) (ev : Event) (s' : PDFPage) :
  height_settled s ->
  apply ev s = Some s' ->
  pageHeight s' = pageHeight s /\ height_settled s'.
Proof.
  intros [Hh Hcalls] Hstep. unfold height_settled.
  destruct ev as [b|sc| |a]; simpl in Hstep.
  - destruct (mounted s); [|done]. injection Hstep as <-.
    unfold intersect. case_match; [|done].
    destruct (renderEffect_cases (set_isVisible true s))
      as [-> | (_ & _ & ->)]; simpl; [done|].
    repeat split; try done. apply Forall_app. split; [done|].
    by apply Forall_singleton.
  - destruct (mounted s); [|done]. injection Hstep as <-.
    unfold setScale. case_match; [done|].
    destruct (renderEffect_cases (set_scale sc s))
      as [-> | (_ & _ & ->)]; simpl; [done|].
    repeat split; try done. apply Forall_app. split; [done|].
    by apply Forall_singleton.
  - destruct (mounted s); [|done]. by injection Hstep as <-.
  - assert (Hkeep : pageHeight s' = pageHeight s).
    { destruct (step_pageHeight a s s' Hstep) as [E | (sc & h & Hc & Hf)];
        [exact E|].
      rewrite Forall_lookup in Hcalls. specialize (Hcalls _ _ Hc eq_refl).
      simpl in Hcalls. congruence. }
    rewrite Hkeep. repeat split; try done.
    destruct (step_calls a s s' Hstep) as [-> | (sc & h & Hc & -> & _)].
    + by apply Forall_delete.
    + apply Forall_insert; [done|]. simpl. discriminate.
Qed.

Lemma page_height_is_kept_witness :
  let s := Scenario.after Scenario.rescaled Scenario.page1 in
  let s' := Scenario.after Scenario.superseded Scenario.page1 in
  pageHeight s' = pageHeight s /\ height_settled s'.
Proof.
  intros s s'.
  apply (page_height_is_kept s
           (Resume (GetPageResolved 1 Scenario.a4 1 true)) s');
    [|by vm_compute].
  split; [by vm_compute|].
  vm_compute calls. repeat constructor; simpl; discriminate.
Defined.

Lemma lookup_delete_other {A} (l : list A) (j k : nat) (x : A) :
  l !! k = Some x -> k <> j -> exists k', delete j l !! k' = Some x.
Proof.
  intros Hk Hne. destruct (decide (k < j)%nat) as [Hlt|Hge].
  - exists k. by rewrite list_lookup_delete_lt.
  - exists (k - 1)%nat. rewrite list_lookup_delete_ge by lia.
    by replace (S (k - 1)) with k by lia.
Qed.

(** Every running render task has a call of [render] waiting for it, and
    that call was made for the task's scale. *)
Lemma reachable_waiter (s : PDFPage) :
  reachable s ->
  forall t task, tasks s !! t = Some task -> task_status task = Running ->
    exists i h, calls s !! i = Some (mkCall (task_scale task) h (AwaitTask t)).
Proof.
  induction 1 as [doc page sc | s ev s' Hreach IH Hstep].
  { intros t task Hl. simpl in Hl. by rewrite lookup_nil in Hl. }
  pose proof (reachable_latest_only s Hreach) as Hlatest.
  intros t task Hl Hrun.
  destruct ev as [b|sc| |a].
  1-3: destruct (apply_sync_tasks _ s s' Hstep) as [Ht _];
    [intros a; discriminate|]; rewrite Ht in Hl;
    destruct (IH t task Hl Hrun) as (i & h & Hi); exists i, h.
  - simpl in Hstep. destruct (mounted s); [|done]. injection Hstep as <-.
    unfold intersect. case_match; [|done].
    destruct (renderEffect_cases (set_isVisible true s))
      as [-> | (_ & _ & ->)]; simpl; [done|]. by apply lookup_app_l_Some.
  - simpl in Hstep. destruct (mounted s); [|done]. injection Hstep as <-.
    unfold setScale. case_match; [done|].
    destruct (renderEffect_cases (set_scale sc s))
      as [-> | (_ & _ & ->)]; simpl; [done|]. by apply lookup_app_l_Some.
  - simpl in Hstep. destruct (mounted s); [|done]. by injection Hstep as <-.
  - simpl in Hstep.
    destruct a as [i nat dpr ctx|i name|i|i name|i]; simpl in Hstep.
    + destruct (calls s !! i) as [[sc h [|t0]]|] eqn:Hc; try done.
      injection Hstep as <-.
      destruct (renderBody_issue i (mkCall sc h AwaitGetPage) nat dpr ctx s)
        as [(_ & Ht & _ & Hcalls & _) | (_ & Ht & _ & Hcalls & _)];
        rewrite Ht in Hl; rewrite Hcalls; simpl in *.
      * pose proof (latest_only_issue s sc t task Hlatest Hl Hrun) as ->.
        unfold issued in Hl. rewrite lookup_app_r in Hl
          by (destruct (renderTaskRef s); rewrite ?length_alter; lia).
        replace (length (tasks s) - _)%nat with 0%nat in Hl
          by (destruct (renderTaskRef s); rewrite ?length_alter; lia).
        injection Hl as <-. exists i, h. simpl.
        apply list_lookup_insert_eq. by eapply lookup_lt_Some.
      * destruct (IH t task Hl Hrun) as (k & h' & Hk).
        destruct (lookup_delete_other (calls s) i k _ Hk) as [k' Hk'];
          [congruence | by exists k', h'].
    + destruct (calls s !! i) as [[sc h [|t0]]|] eqn:Hc; try done.
      injection Hstep as <-.
      assert (tasks (catchRender name s) = tasks s) as Ht
        by (unfold catchRender; by case_match).
      simpl in Hl. rewrite Ht in Hl.
      destruct (IH t task Hl Hrun) as (k & h' & Hk).
      destruct (lookup_delete_other (calls s) i k _ Hk) as [k' Hk'];
        [congruence|]. by exists k', h'.
    + destruct (awaited Running i s) as [t0|] eqn:Ea; [|done].
      injection Hstep as <-. exfalso.
      apply awaited_Some in Ea as (c & task0 & _ & _ & Ht0 & Hs0).
      assert (Hl' : alter (settle Finished) t0 (tasks s) !! t = Some task)
        by (revert Hl; unfold setIsRendered; by case_match).
      destruct (decide (t0 = t)) as [->|Hne].
      * rewrite list_lookup_alter_eq, Ht0 in Hl'. by injection Hl' as <-.
      * rewrite list_lookup_alter_ne in Hl' by done.
        pose proof (Hlatest _ _ Hl' Hrun). pose proof (Hlatest _ _ Ht0 Hs0).
        congruence.
    + destruct (awaited Running i s) as [t0|] eqn:Ea; [|done].
      injection Hstep as <-. exfalso.
      apply awaited_Some in Ea as (c & task0 & _ & _ & Ht0 & Hs0).
      assert (Hl' : alter (settle Errored) t0 (tasks s) !! t = Some task)
        by (revert Hl; unfold catchRender; by case_match).
      destruct (decide (t0 = t)) as [->|Hne].
      * rewrite list_lookup_alter_eq, Ht0 in Hl'. by injection Hl' as <-.
      * rewrite list_lookup_alter_ne in Hl' by done.
        pose proof (Hlatest _ _ Hl' Hrun). pose proof (Hlatest _ _ Ht0 Hs0).
        congruence.
    + destruct (awaited Cancelled i s) as [t0|] eqn:Ea; [|done].
      injection Hstep as <-. change (tasks s !! t = Some task) in Hl.
      change (exists k h, delete i (calls s) !! k
                = Some (mkCall (task_scale task) h (AwaitTask t))).
      apply awaited_Some in Ea as (c & task0 & Hc & Hp & Ht0 & Hs0).
      destruct (IH t task Hl Hrun) as (k & h' & Hk).
      destruct (lookup_delete_other (calls s) i k _ Hk) as [k' Hk'];
        [|by exists k', h'].
      intros ->. rewrite Hk in Hc. injection Hc as <-. simpl in Hp.
      injection Hp as ->. rewrite Hl in Ht0. injection Ht0 as <-.
      rewrite Hrun in Hs0. discriminate.
Qed.

(** X14: a running render task is never orphaned: in every state a page can
    reach, one of its suspended calls of [render] waits for the task, was
    made for the task's scale, and can resume with the task's completion,
    which finishes the task and, on a page still in the tree, marks it
    rendered. *)
Theorem running_task_can_complete (s : PDFPage) (t : nat) (task : RenderTask) :
  reachable s ->
  tasks s !! t = Some task ->
  task_status task = Running ->
  exists i c s',
    calls s !! i = Some c /\ call_scale c = task_scale task
    /\ step (TaskResolved i) s = Some s'
    /\ tasks s' !! t = Some (mkTask (task_scale task) Finished)
    /\ (mounted s = true -> isRendered s' = true).
Proof.
  intros Hreach Hl Hrun.
  destruct (reachable_waiter s Hreach t task Hl Hrun) as (i & h & Hi).
  assert (Ha : awaited Running i s = Some t).
  { unfold awaited. rewrite Hi, Hl. by rewrite bool_decide_eq_true_2. }
  eexists i, _, _. split; [exact Hi|]. split; [reflexivity|].
  simpl. rewrite Ha. split; [reflexivity|]. split.
  - unfold setIsRendered. case_match; simpl;
      by rewrite list_lookup_alter_eq, Hl.
  - intros Hm. unfold setIsRendered. simpl. unfold mounted in *. simpl.
    by rewrite Hm.
Qed.

Lemma running_task_can_complete_witness :
  exists i c s',
    calls (Scenario.after Scenario.superseded Scenario.page1) !! i = Some c
    /\ call_scale c = 1 # 2
    /\ step (TaskResolved i)
            (Scenario.after Scenario.superseded Scenario.page1) = Some s'
    /\ tasks s' !! 1%nat = Some (mkTask (1 # 2) Finished)
    /\ (mounted (Scenario.after Scenario.superseded Scenario.page1) = true ->
        isRendered s' = true).
Proof.
  apply (running_task_can_complete
           (Scenario.after Scenario.superseded Scenario.page1) 1
           (mkTask (1 # 2) Running));
    [exact scenario_superseded_reachable | by vm_compute | reflexivity].
Defined.

(** X15: rendering is lazy: as long as a page has never intersected the
    viewport it has started no call of [render], issued no render task,
    measured no height, logged nothing, and left its canvas as created. *)
Theorem invisible_page_is_idle (s : PDFPage) :
  reachable s ->
  isVisible s = false ->
  calls s = [] /\ tasks s = [] /\ renderTaskRef s = None
  /\ isRendered s = false /\ pageHeight s = None /\ console s = []
  /\ (canvasRef s = Some Geometry.newCanvas \/ canvasRef s = None).
Proof.
  induction 1 as [doc page sc | s ev s' _ IH Hstep]; intros Hv.
  { simpl. auto 10. }
  assert (Hv0 : isVisible s = false).
  { destruct (isVisible s) eqn:E; [|done].
    destruct (apply_flags s ev s' Hstep) as [[H|H] _];
      rewrite H in Hv; congruence. }
  destruct (IH Hv0) as (Hc & Ht & Hr & Hd & Hh & Hl & Hcv).
  destruct ev as [b|sc| |a]; simpl in Hstep.
  - destruct (mounted s); [|done]. injection Hstep as <-.
    unfold intersect in *. rewrite Hv0 in *. destruct b; simpl in *.
    + destruct (renderEffect_cases (set_isVisible true s))
        as [E | (_ & _ & E)]; rewrite E in Hv; done.
    + auto 10.
  - destruct (mounted s); [|done]. injection Hstep as <-.
    unfold setScale in *. case_match; [auto 10|].
    unfold renderEffect in *. simpl in *. rewrite Hv0 in *. simpl. auto 10.
  - destruct (mounted s); [|done]. injection Hstep as <-. simpl. auto 10.
  - apply step_call in Hstep as [c Hcall]. rewrite Hc in Hcall.
    by rewrite lookup_nil in Hcall.
Qed.

Lemma invisible_page_is_idle_witness :
  calls (Scenario.after [SetScale (1 # 2); Intersect false] Scenario.page1) = [].
Proof.
  apply (invisible_page_is_idle
           (Scenario.after [SetScale (1 # 2); Intersect false] Scenario.page1)).
  - apply (run_reachable [SetScale (1 # 2); Intersect false] Scenario.page1);
      [constructor | by vm_compute].
  - by vm_compute.
Defined.

(** X16: a page removed from the tree only winds down: the only events
    left are resumptions of its suspended calls, each ends one call, and
    none changes a hook, the canvas reference or [renderTaskRef] or issues
    a render task. *)
Theorem unmounted_page_winds_down (s : PDFPage) (ev : Event) (s' : PDFPage) :
  mounted s = false ->
  apply ev s = Some s' ->
  (exists a, ev = Resume a)
  /\ S (length (calls s')) = length (calls s)
  /\ length (tasks s') = length (tasks s)
  /\ renderTaskRef s' = renderTaskRef s
  /\ isVisible s' = isVisible s /\ isRendered s' = isRendered s
  /\ pageHeight s' = pageHeight s /\ mounted s' = false.
Proof.
  intros Hm Hstep. destruct ev as [b|sc| |a]; simpl in Hstep;
    try (rewrite Hm in Hstep; done).
  split; [by exists a|].
  pose proof (step_call a s s' Hstep) as Hcall.
  pose proof (lookup_lt_is_Some_1 _ _ Hcall) as Hlt.
  assert (Hdel : S (length (delete (call_of a) (calls s))) = length (calls s)).
  { rewrite length_delete by done. lia. }
  destruct a as [i nat dpr ctx|i name|i|i name|i]; simpl in Hstep, Hdel.
  - destruct (calls s !! i) as [[sc h [|t]]|]; try done.
    injection Hstep as <-.
    destruct (renderBody_hooks i (mkCall sc h AwaitGetPage) nat dpr ctx s)
      as (Hv & Hr & _ & _ & _ & Hm' & Hh).
    rewrite Hm in Hh, Hm'. simpl in Hh.
    destruct (renderBody_issue i (mkCall sc h AwaitGetPage) nat dpr ctx s)
      as [(E & _) | (_ & Ht & Href & Hc & _)];
      [by rewrite Hm in E|].
    rewrite Hc, Ht, Href. auto 10.
  - destruct (calls s !! i) as [[sc h [|t]]|]; try done.
    injection Hstep as <-. unfold catchRender. case_match; simpl; auto 10.
  - destruct (awaited Running i s); [|done]. injection Hstep as <-.
    unfold setIsRendered, mounted in *. simpl. rewrite Hm. simpl.
    rewrite length_alter. auto 10.
  - destruct (awaited Running i s); [|done]. injection Hstep as <-.
    unfold catchRender. case_match; simpl; rewrite length_alter; auto 10.
  - destruct (awaited Cancelled i s); [|done]. injection Hstep as <-.
    simpl. auto 10.
Qed.

Lemma unmounted_page_winds_down_witness :
  let s := Scenario.after (Scenario.rescaled ++ [Unmount]) Scenario.page1 in
  let s' := Scenario.after
              (Scenario.rescaled
               ++ [Unmount; Resume (GetPageResolved 1 Scenario.a4 1 true)])
              Scenario.page1 in
  S (length (calls s')) = length (calls s)
  /\ length (tasks s') = length (tasks s).
Proof.
  intros s s'.
  destruct (unmounted_page_winds_down s
              (Resume (GetPageResolved 1 Scenario.a4 1 true)) s')
    as (_ & H1 & H2 & _); [by vm_compute | by vm_compute | by split].
Defined.

(** X17: when [getPage] resolves, a render task is issued, with the canvas
    sized for the scale the call captured, only on a page in the tree
    whose canvas gives a 2D context; otherwise the call just ends, without
    a trace when there is no context, with a [TypeError] on the console
    when the page was removed from the tree. *)
Theorem render_is_issued_when_possible
    (s : PDFPage) (i : nat) (natural : Q * Q) (dpr : Q) (ctx : bool)
    (s' : PDFPage) :
  step (GetPageResolved i natural dpr ctx) s = Some s' ->
  exists sc h,
    calls s !! i = Some (mkCall sc h AwaitGetPage)
    /\ if mounted s && ctx
       then tasks s' = issued sc s
            /\ canvasRef s'
               = Some (Geometry.sizeCanvas (Geometry.getViewport natural sc) dpr)
            /\ console s' = console s
       else tasks s' = tasks s /\ canvasRef s' = canvasRef s
            /\ calls s' = delete i (calls s)
            /\ console s'
               = if mounted s then console s
                 else console s ++ [(pageNum s, "TypeError"%string)].
Proof.
  simpl. destruct (calls s !! i) as [[sc h [|t]]|]; try done.
  intros [= <-]. exists sc, h. split; [reflexivity|].
  destruct (renderBody_issue i (mkCall sc h AwaitGetPage) natural dpr ctx s)
    as [(E & Ht & _ & _ & Hc & _) | (E & Ht & _ & Hcalls & Hc & Hcv)];
    rewrite E.
  - repeat split; try done.
    revert E. unfold renderBody, setPageHeight, mounted.
    destruct s as [d pn sc0 v r h0 cv ref ts cs co]; simpl.
    destruct cv, ctx; try done.
    intros _. destruct (falsy h); simpl; by destruct ref.
  - auto.
Qed.

Lemma render_is_issued_when_possible_witness :
  let s := Scenario.after (Scenario.rescaled ++ [Unmount]) Scenario.page1 in
  let s' := Scenario.after
              (Scenario.rescaled
               ++ [Unmount; Resume (GetPageResolved 1 Scenario.a4 1 true)])
              Scenario.page1 in
  tasks s' = tasks s
  /\ console s' = console s ++ [(1%nat, "TypeError"%string)].
Proof.
  intros s s'.
  destruct (render_is_issued_when_possible s 1 Scenario.a4 1 true s')
    as (sc & h & _ & H); [by vm_compute|].
  assert (E : mounted s = false) by (by vm_compute).
  rewrite E in H. simpl in H. destruct H as (Ht & _ & _ & Hc).
  split; [exact Ht | exact Hc].
Defined.

End PageLife.

(** ** The viewer over time *)

Section ViewerSession.
Import Page Viewer Session.
















End ViewerSession.

(** ** The toolbar timer *)

Section ToolbarTimer.
Import Toolbar.

(** Every waiting timer is the one [toolbarTimeoutRef] holds. *)
Lemma clearCurrent_quiet (s : State) :
  (forall k, timers s !! k = Some Waiting -> toolbarTimeoutRef s = Some (S k)) ->
  forall k, timers (clearCurrent s) !! k <> Some Waiting.
Proof.
  intros Hinv k. unfold clearCurrent.
  destruct (toolbarTimeoutRef s) as [[|k0]|] eqn:Er; simpl.
  - intros Hk. specialize (Hinv k Hk). done.
  - destruct (decide (k0 = k)) as [->|Hne].
    + rewrite list_lookup_alter_eq. destruct (timers s !! k) as [[]|]; done.
    + rewrite list_lookup_alter_ne by done. intros Hk.
      specialize (Hinv k Hk). congruence.
  - intros Hk. specialize (Hinv k Hk). done.
Qed.

Lemma resetToolbarTimer_waiting (s : State) (k : nat) :
  (forall k, timers s !! k = Some Waiting -> toolbarTimeoutRef s = Some (S k)) ->
  timers (resetToolbarTimer s) !! k = Some Waiting <->
  k = length (timers (clearCurrent s)).
Proof.
  intros Hinv. unfold resetToolbarTimer. cbn [timers]. split.
  - intros Hk. apply lookup_app_Some in Hk as [Hk | [Hge Hk]].
    + by destruct (clearCurrent_quiet s Hinv k).
    + apply lookup_lt_Some in Hk. simpl in Hk. lia.
  - intros ->. rewrite lookup_app_r by lia. by rewrite Nat.sub_diag.
Qed.

Lemma setShowToolbar_clearCurrent (b : bool) (s : State) :
  timers (clearCurrent (setShowToolbar b s)) = timers (clearCurrent s).
Proof. unfold clearCurrent, setShowToolbar. simpl. by case_match. Qed.

Lemma reachable_waiting_is_current (s : State) (k : nat) :
  reachable s ->
  timers s !! k = Some Waiting ->
  toolbarTimeoutRef s = Some (S k).
Proof.
  intros Hreach. revert k.
  induction Hreach as [|s ev s' _ IH Hstep]; intros k Hk.
  - apply resetToolbarTimer_waiting in Hk as ->; [reflexivity|].
    intros k' Hk'. simpl in Hk'. by rewrite lookup_nil in Hk'.
  - destruct ev as [| | | | | | |[|k0]]; simpl in Hstep; try done.
    + injection Hstep as <-.
      apply resetToolbarTimer_waiting in Hk as ->; [reflexivity | exact IH].
    + injection Hstep as <-. by destruct (clearCurrent_quiet s IH k).
    + injection Hstep as <-.
      apply resetToolbarTimer_waiting in Hk as ->; [reflexivity | exact IH].
    + injection Hstep as <-.
      apply resetToolbarTimer_waiting in Hk as ->; [reflexivity | exact IH].
    + injection Hstep as <-.
      apply resetToolbarTimer_waiting in Hk as ->; [reflexivity | exact IH].
    + injection Hstep as <-. by apply IH.
    + injection Hstep as <-.
      apply resetToolbarTimer_waiting in Hk as ->; [reflexivity | exact IH].
    + destruct (timers s !! k0) as [[]|] eqn:E0; try done.
      injection Hstep as <-. simpl in *.
      destruct (decide (k0 = k)) as [->|Hne].
      * rewrite list_lookup_insert_eq in Hk by (by eapply lookup_lt_Some).
        done.
      * rewrite list_lookup_insert_ne in Hk by done. by apply IH.
Qed.

(** X22: at most one toolbar timer is waiting at any time, and it is the
    one [toolbarTimeoutRef] holds: timers of earlier interactions have been
    cleared or have fired. *)
Theorem toolbar_one_waiting_timer (s : State) (k1 k2 : nat) :
  reachable s ->
  timers s !! k1 = Some Waiting ->
  timers s !! k2 = Some Waiting ->
  k1 = k2 /\ toolbarTimeoutRef s = Some (S k1).
Proof.
  intros Hreach H1 H2.
  pose proof (reachable_waiting_is_current s k1 Hreach H1).
  pose proof (reachable_waiting_is_current s k2 Hreach H2).
  split; congruence.
Qed.

Lemma toolbar_one_waiting_timer_witness :
  (2 = 2)%nat
  /\ toolbarTimeoutRef (run [LeaveToolbar; ZoomButton] init) = Some 3%nat.
Proof.
  apply (toolbar_one_waiting_timer (run [LeaveToolbar; ZoomButton] init) 2 2).
  - apply (reachable_step (run [LeaveToolbar] init) ZoomButton);
      [|reflexivity].
    apply (reachable_step init LeaveToolbar); [constructor | reflexivity].
  - reflexivity.
  - reflexivity.
Defined.



(** X24: leaving the viewer clears the timer: after the cleanup of the
    mount effect no timer callback can run any more. *)
Theorem unmount_clears_timer (s : State) (handle : nat) :
  reachable s ->
  step (Timeout handle) (unmount s) = None.
Proof.
  intros Hreach. destruct handle as [|k]; [reflexivity|]. simpl.
  destruct (clearTimeout (toolbarTimeoutRef s) (timers s) !! k)
    as [[]|] eqn:E; try done. exfalso.
  unfold clearTimeout in E.
  destruct (toolbarTimeoutRef s) as [[|k0]|] eqn:Er.
  - pose proof (reachable_waiting_is_current s k Hreach E). congruence.
  - destruct (decide (k0 = k)) as [->|Hne].
    + rewrite list_lookup_alter_eq in E.
      by destruct (timers s !! k) as [[]|].
    + rewrite list_lookup_alter_ne in E by done.
      pose proof (reachable_waiting_is_current s k Hreach E). congruence.
  - pose proof (reachable_waiting_is_current s k Hreach E). congruence.
Qed.

Lemma unmount_clears_timer_witness :
  step (Timeout 2) (unmount (run [LeaveToolbar] init)) = None.
Proof.
  apply (unmount_clears_timer (run [LeaveToolbar] init) 2).
  apply (reachable_step init LeaveToolbar); [constructor | reflexivity].
Defined.



End ToolbarTimer.

(** ** The file list of the application *)

Section FileList.
Import Files.

Lemma append_assoc (a b c : string) : ((a ++ b) ++ c = a ++ (b ++ c))%string.
Proof. induction a as [|x a IH]; simpl; [done | by rewrite IH]. Qed.

Lemma append_empty_r (a : string) : (a ++ "")%string = a.
Proof. induction a as [|x a IH]; simpl; [done | by rewrite IH]. Qed.

Lemma last_segment_dotfree (s acc : string) :
  dotfree s = true -> last_segment s acc = (acc ++ s)%string.
Proof.
  revert acc. induction s as [|c s IH]; intros acc; simpl.
  - by rewrite append_empty_r.
  - destruct (Ascii.eqb c "."); simpl; [done|].
    intros Hs. rewrite (IH _ Hs). by rewrite append_assoc.
Qed.

Lemma last_segment_after_dot (s1 s2 acc : string) :
  last_segment (s1 ++ String "." s2) acc = last_segment s2 "".
Proof.
  revert acc. induction s1 as [|c s1 IH]; intros acc; simpl; [done|].
  destruct (Ascii.eqb c "."); apply IH.
Qed.

Lemma dotfree_append (a b : string) :
  dotfree (a ++ b) = dotfree a && dotfree b.
Proof.
  induction a as [|c a IH]; simpl; [done|].
  rewrite IH. by rewrite andb_assoc.
Qed.

Lemma last_segment_is_dotfree (s acc : string) :
  dotfree acc = true -> dotfree (last_segment s acc) = true.
Proof.
  revert acc. induction s as [|c s IH]; intros acc Hacc; simpl; [done|].
  destruct (Ascii.eqb c ".") eqn:E; apply IH; [done|].
  rewrite dotfree_append, Hacc. simpl. by rewrite E.
Qed.

(** X7: the type of an uploaded file is what follows the last dot of its
    name: it is never empty and holds no dot; a name without a dot is its
    own type, and a name that is empty or ends in a dot gets the type
    "file". *)
Theorem extension_is_last_segment (fname base ext : string) :
  (extension fname <> ""%string /\ dotfree (extension fname) = true)
  /\ (dotfree ext = true -> ext <> ""%string ->
      extension (base ++ String "." ext) = ext)
  /\ (dotfree fname = true -> fname <> ""%string -> extension fname = fname)
  /\ extension (base ++ ".") = "file"%string
  /\ extension "" = "file"%string.
Proof.
  unfold extension. repeat split.
  - destruct (String.eqb_spec (last_segment fname "") ""); done.
  - destruct (String.eqb_spec (last_segment fname "") ""); [done|].
    by apply last_segment_is_dotfree.
  - intros Hd Hne. rewrite last_segment_after_dot, last_segment_dotfree by done.
    simpl. by destruct (String.eqb_spec ext "").
  - intros Hd Hne. rewrite last_segment_dotfree by done. simpl.
    by destruct (String.eqb_spec fname "").
  - by rewrite last_segment_after_dot.
Qed.

(** X26: the file shown in the viewer is always one of the listed files:
    whatever is uploaded, opened, restored or removed, the id of the
    current file is the id of a file in the list; removing the file on
    view closes the viewer. *)
Theorem current_file_is_listed (a : App) (c : StudyFile) :
  reachable a ->
  currentFile a = Some c ->
  id c ∈ id <$> files a.
Proof.
  intros Hreach. revert c.
  induction Hreach as [fs | a ev a' _ IH Hstep]; intros c Hc; [done|].
  destruct ev as [newId fname sz now u|pos now| |i u|i|i]; simpl in Hstep.
  - injection Hstep as <-. simpl in *. apply list_elem_of_further. by apply IH.
  - destruct (files a !! pos) as [file|] eqn:Hl; [|done].
    injection Hstep as <-. simpl in *. injection Hc as <-.
    rewrite <- list_fmap_compose.
    apply list_elem_of_fmap. exists file. split.
    + simpl. by destruct (String.eqb (id file) (id file)).
    + by eapply list_elem_of_lookup_2.
  - by injection Hstep as <-.
  - injection Hstep as <-. simpl in *. rewrite <- list_fmap_compose.
    destruct (currentFile a) as [c0|]; [|done].
    specialize (IH c0 eq_refl).
    apply list_elem_of_fmap in IH as (f & Hid & Hf).
    apply list_elem_of_fmap. exists f. split; [|done]. simpl.
    destruct (String.eqb (id c0) i); injection Hc as <-;
      destruct (String.eqb (id f) i); done.
  - injection Hstep as <-. simpl in *.
    destruct (currentFile a) as [c0|]; [|done].
    destruct (String.eqb (id c0) i) eqn:E; [done|]. injection Hc as <-.
    specialize (IH c0 eq_refl).
    apply list_elem_of_fmap in IH as (f & Hid & Hf).
    apply list_elem_of_fmap. exists f. split; [done|].
    apply list_elem_of_In, filter_In. split; [by apply list_elem_of_In|].
    by rewrite <- Hid, E.
  - injection Hstep as <-. by apply IH.
Qed.

Lemma current_file_is_listed_witness :
  id Samples.stripped ∈ id <$> files (openFile Samples.stripped 5 Samples.start).
Proof.
  apply (current_file_is_listed (openFile Samples.stripped 5 Samples.start)).
  - apply (reachable_step Samples.start (Open 2 5)); [constructor | reflexivity].
  - reflexivity.
Defined.

Lemma update_metadata (i newUrl : string) (f : StudyFile) :
  metadata (if String.eqb (id f) i then set_url (Some newUrl) f else f)
  = metadata f.
Proof. by destruct (String.eqb (id f) i). Qed.

(** X27: restoring a file's content touches nothing else: every listed file
    keeps its place and its id, name, type, date and size; the files with
    the given id, and only they, get the new URL; with no such file listed
    the list is unchanged; and restoring twice is restoring once. *)
Theorem update_file_sets_only_url (i newUrl : string) (a : App) :
  let a' := handleUpdateFile i newUrl a in
  metadata <$> files a' = metadata <$> files a
  /\ (forall k f', files a' !! k = Some f' ->
       exists f, files a !! k = Some f
         /\ url f' = if String.eqb (id f) i then Some newUrl else url f)
  /\ (i ∉ id <$> files a -> files a' = files a)
  /\ handleUpdateFile i newUrl a' = a'.
Proof.
  intros a'. subst a'. unfold handleUpdateFile. cbn [files currentFile].
  split; [|split; [|split]].
  - rewrite <- list_fmap_compose. apply list_fmap_ext.
    intros k f _. apply update_metadata.
  - intros k f'. rewrite list_lookup_fmap.
    destruct (files a !! k) as [f|]; [|done]. intros [= <-].
    exists f. split; [done|]. by destruct (String.eqb (id f) i).
  - intros Hi. rewrite <- (list_fmap_id (files a)) at 2.
    apply list_fmap_ext. intros k f Hf. simpl.
    destruct (String.eqb_spec (id f) i) as [E|]; [|done].
    destruct Hi. rewrite <- E. apply list_elem_of_fmap_2.
    by eapply list_elem_of_lookup_2.
  - f_equal.
    + rewrite <- list_fmap_compose. apply list_fmap_ext.
      intros k f _. simpl.
      destruct (String.eqb (id f) i) eqn:E; simpl; by rewrite E.
    + destruct (currentFile a) as [c|]; [|done].
      destruct (String.eqb (id c) i) eqn:E; simpl; by rewrite E.
Qed.

Lemma isSmall_bound (f : StudyFile) :
  isSmall f = true <->
  exists u, url f = Some u /\ u <> ""%string
            /\ (Z.of_nat (String.length u) < 512000)%Z.
Proof.
  unfold isSmall. destruct (url f) as [u|]; [|split; [done | by intros (? & ? & _)]].
  rewrite andb_true_iff, negb_true_iff, Z.ltb_lt. split.
  - intros [Hne Hlen]. exists u. split; [done|]. split; [|exact Hlen].
    by apply String.eqb_neq.
  - intros (u' & [= <-] & Hne & Hlen). split; [|exact Hlen].
    by apply String.eqb_neq.
Qed.

(** X28: what is written to storage keeps every file, in order, with its
    id, name, type, date and size; a file keeps its content exactly when
    the content is non-empty and shorter than 500 * 1024 characters, and
    is stored without content otherwise; storing what was stored changes
    nothing. *)
Theorem stored_files_drop_large_content (fs : list StudyFile) :
  metadata <$> filesToSave fs = metadata <$> fs
  /\ (forall k f', filesToSave fs !! k = Some f' ->
       exists f, fs !! k = Some f
         /\ url f' = if isSmall f then url f else None)
  /\ (forall f' u, f' ∈ filesToSave fs -> url f' = Some u ->
       u <> ""%string /\ (Z.of_nat (String.length u) < 512000)%Z)
  /\ filesToSave (filesToSave fs) = filesToSave fs.
Proof.
  unfold filesToSave. split; [|split; [|split]].
  - rewrite <- list_fmap_compose. apply list_fmap_ext.
    intros k f _. simpl. by destruct (isSmall f).
  - intros k f'. rewrite list_lookup_fmap.
    destruct (fs !! k) as [f|]; [|done]. intros [= <-].
    exists f. split; [done|]. by destruct (isSmall f).
  - intros f' u Hin Hu. apply list_elem_of_fmap in Hin as (f & -> & _).
    destruct (isSmall f) eqn:E; [|done].
    apply isSmall_bound in E as (u' & Hu' & Hne & Hlen).
    rewrite Hu' in Hu. by injection Hu as <-.
  - rewrite <- list_fmap_compose. apply list_fmap_ext.
    intros k f _. simpl. destruct (isSmall f) eqn:E; [by rewrite E | done].
Qed.

End FileList.

(** ** What the viewer shows *)

Section Shown.
Import Files Content.

(** X29: the restore prompt is shown exactly for a file without content,
    whatever else is going on; and, with no empty error message set, the
    page list is shown exactly when the file has content, its type is
    "pdf" in any letter case, nothing is loading, no error is set and a
    document is loaded. *)
Theorem renderContent_cases (file : StudyFile) (v : Viewer.FileViewer) :
  Viewer.error v <> Some ""%string ->
  (renderContent file v = RestorePrompt <-> has_url file = false)
  /\ (renderContent file v = PageList <->
      has_url file = true /\ toLowerCase (type file) = "pdf"%string
      /\ Viewer.showsPages v = true).
Proof.
  intros Herr. unfold renderContent, Viewer.showsPages.
  destruct (has_url file); cbn [negb];
    [|split; split; try done; by intros (? & _)].
  destruct (Viewer.loading v); cbn [negb andb].
  { split; split; try done. by intros (_ & _ & ?). }
  destruct (Viewer.error v) as [msg|] eqn:Ee.
  { destruct (String.eqb_spec msg "") as [->|Hne]; [done|]. cbn [negb].
    rewrite bool_decide_eq_false_2 by done.
    split; split; try done. by intros (_ & _ & ?). }
  rewrite (bool_decide_eq_true_2 (None = None)) by done. cbn [andb].
  destruct (String.eqb_spec (toLowerCase (type file)) "pdf") as [E|E];
    cbn [andb].
  - destruct (bool_decide (is_Some (Viewer.pdfDoc v))).
    + split; split; done.
    + split; split; try done; try (by case_match).
      by intros (_ & _ & ?).
  - split; split; try done; try (by case_match).
    by intros (_ & ? & _).
Qed.

Lemma renderContent_cases_witness :
  renderContent Samples.stripped
    (Scenario.afterV Scenario.threePages Viewer.init) = RestorePrompt
  <-> has_url Samples.stripped = false.
Proof.
  apply (renderContent_cases Samples.stripped
           (Scenario.afterV Scenario.threePages Viewer.init)).
  by vm_compute.
Defined.

(** X30: the restore flow leaves the restore prompt: for a file on view
    without content the viewer shows the restore prompt, and after
    [handleUpdateFile] with a non-empty URL the file on view has that URL,
    the prompt is gone, and so is the need to restore every listed file of
    that id. *)
Theorem restore_leaves_prompt
    (a : App) (c : StudyFile) (newUrl : string) (v : Viewer.FileViewer) :
  currentFile a = Some c ->
  has_url c = false ->
  newUrl <> ""%string ->
  renderContent c v = RestorePrompt
  /\ exists c',
       currentFile (handleUpdateFile (id c) newUrl a) = Some c'
       /\ url c' = Some newUrl /\ metadata c' = metadata c
       /\ renderContent c' v <> RestorePrompt
       /\ forall f', f' ∈ files (handleUpdateFile (id c) newUrl a) ->
            id f' = id c -> has_url f' = true.
Proof.
  intros Hc Hno Hne. split.
  - unfold renderContent. by rewrite Hno.
  - exists (set_url (Some newUrl) c).
    assert (Hhas : has_url (set_url (Some newUrl) c) = true).
    { unfold has_url. simpl. by apply negb_true_iff, String.eqb_neq. }
    split; [|split; [done|split; [done|split]]].
    + unfold handleUpdateFile. simpl. rewrite Hc. by rewrite String.eqb_refl.
    + unfold renderContent. rewrite Hhas. simpl.
      destruct (Viewer.loading v); [done|].
      destruct (Viewer.error v); repeat case_match; done.
    + intros f' Hin Hid. unfold handleUpdateFile in Hin. simpl in Hin.
      apply list_elem_of_fmap in Hin as (f & -> & _).
      destruct (String.eqb_spec (id f) (id c)) as [E|E].
      * unfold has_url. simpl. by apply negb_true_iff, String.eqb_neq.
      * simpl in Hid. done.
Qed.

Lemma restore_leaves_prompt_witness :
  renderContent Samples.stripped Viewer.init = RestorePrompt
  /\ exists c',
       currentFile (handleUpdateFile (id Samples.stripped) "data:x"
                      (openFile Samples.stripped 5 Samples.start)) = Some c'
       /\ url c' = Some "data:x"%string
       /\ metadata c' = metadata Samples.stripped
       /\ renderContent c' Viewer.init <> RestorePrompt
       /\ forall f',
            f' ∈ files (handleUpdateFile (id Samples.stripped) "data:x"
                          (openFile Samples.stripped 5 Samples.start)) ->
            id f' = id Samples.stripped -> has_url f' = true.
Proof.
  apply (restore_leaves_prompt (openFile Samples.stripped 5 Samples.start)
           Samples.stripped "data:x" Viewer.init);
    [reflexivity | reflexivity | discriminate].
Defined.

End Shown.
